(** * squid-sdk: EVM processor configuration, archive client and hot-block
      change log

    A shallow embedding of three source files of the repository:

    - [typeorm/typeorm-store/src/hot.ts]: the [ChangeTracker] class and
      [rollbackBlock] (module [Hot]);
    - the archive client of the EVM processor ([EvmArchive], the gateway
      mapping functions and [toFieldSelection]; module [Archive]);
    - [evm/evm-processor/src/processor.ts]: [EvmBatchProcessor] and its
      helpers (module [Processor]).

    JavaScript objects used as records are records, objects used as
    dictionaries are [gmap]s, optional properties are [option]s, exceptions
    are explicit error results, and the database and the HTTP upstream are
    explicit states threaded through the calls. *)

From Stdlib Require Import ZArith String Ascii.
From stdpp Require Import gmap strings list fin_maps option.

Local Open Scope string_scope.
Local Open Scope list_scope.
Local Open Scope Z_scope.

(** ** JavaScript helpers shared by the three files *)

Module Js.

(** [Array.prototype.sort(compareFn)]: a stable sort; an element moves
    behind every element that compares strictly smaller. *)
Fixpoint sort_insert {A} (cmp : A → A → Z) (x : A) (l : list A) : list A :=
  match l with
  | [] => [x]
  | y :: l' => if (cmp x y <=? 0)%Z then x :: y :: l' else y :: sort_insert cmp x l'
  end.

Definition sort {A} (cmp : A → A → Z) (l : list A) : list A :=
  foldr (sort_insert cmp) [] l.

(** [maybeLast(array)] of [util-internal]: the last element, if any. *)
Definition maybeLast {A} (l : list A) : option A := list.last l.

(** [String.prototype.toLowerCase], exact on ASCII text (the hex strings
    this code handles); bytes outside [A-Z] are left alone. *)
Definition lower_ascii (c : ascii) : ascii :=
  let n := nat_of_ascii c in
  if ((65 <=? n)%nat && (n <=? 90)%nat)%bool then ascii_of_nat (n + 32) else c.

Fixpoint toLowerCase (s : string) : string :=
  match s with
  | EmptyString => EmptyString
  | String c s' => String (lower_ascii c) (toLowerCase s')
  end.

(** [Array.prototype.join(sep)] *)
Fixpoint join (sep : string) (l : list string) : string :=
  match l with
  | [] => ""
  | [x] => x
  | x :: rest => (x ++ sep ++ join sep rest)%string
  end.

(** A cell of a table row as the driver hands it to JavaScript: [null], a
    boolean, an integer number, a string, a number that is no number
    ([NaN], for a float column), a [Date] (with its [toISOString()] text)
    or a [Buffer] (with its bytes). [BufferObject] is the plain object
    [{type: 'Buffer', data}] that [JSON.stringify] makes of a [Buffer]. *)
Inductive value :=
| Null
| Bool (b : bool)
| Num (n : Z)
| Str (s : string)
| NaN
| Date (iso : string)
| Buffer (data : list Z)
| BufferObject (data : list Z).

#[export] Instance value_eq_dec : EqDecision value.
Proof. solve_decision. Defined.

(** [JSON.parse(JSON.stringify(v))]: [NaN] comes back as [null], a [Date]
    as its ISO string, a [Buffer] as a plain object. *)
Definition json (v : value) : value :=
  match v with
  | NaN => Null
  | Date iso => Str iso
  | Buffer data => BufferObject data
  | _ => v
  end.

(** A list in ascending order of a key. *)
Fixpoint ascending {A} (key : A → Z) (l : list A) : Prop :=
  match l with
  | [] => True
  | x :: rest => Forall (λ y, key x ≤ key y) rest ∧ ascending key rest
  end.

End Js.

(** ** hot.ts: change tracker and rollback of hot blocks *)

Module Hot.
Import Js.

(** [Record<string, any>]: column name to cell value. *)
Abbreviation Fields := (gmap string value).

(** [Entity]: an object with a string [id] and further properties. The
    destructuring [{id, ...fields} = e] is [(id e, props e)]. *)
Record Entity := mkEntity { id : string; props : Fields }.

(** [ChangeRecord = InsertRecord | UpdateRecord | DeleteRecord]; the
    [kind] tag is the constructor. *)
Inductive ChangeRecord :=
| InsertRecord (table : string) (rid : string)
| UpdateRecord (table : string) (rid : string) (fields : Fields)
| DeleteRecord (table : string) (rid : string) (fields : Fields).

(** The JSON text of a change record, held as the record the text parses
    into. *)
Inductive Json := json_text (parsed : ChangeRecord).

(** [JSON.stringify(change)] *)
Definition JSON_stringify (c : ChangeRecord) : Json :=
  json_text
    match c with
    | InsertRecord table rid => InsertRecord table rid
    | UpdateRecord table rid fields => UpdateRecord table rid (json <$> fields)
    | DeleteRecord table rid fields => DeleteRecord table rid (json <$> fields)
    end.

(** What the driver makes of a [jsonb] cell when it reads a row. *)
Definition JSON_parse (j : Json) : ChangeRecord :=
  match j with json_text c => c end.

(** A row of [hot_change_log]. The column [change] holds JSON;
    [rec.change] in [rollbackBlock] is [JSON_parse (change rec)]. *)
Record ChangeRow := mkChangeRow {
  block_height : Z;
  index : Z;
  change : Json
}.

(** An identifier interpolated into SQL text: the result of
    [escape(em, name)], or the bare string. *)
Inductive Ident :=
| Escaped (name : string)
| Raw (name : string).

Definition ident_name (i : Ident) : string :=
  match i with Escaped n | Raw n => n end.

(** A parameter marker in SQL text: [$n], with [n] as written, or [?]. *)
Inductive Marker :=
| Dollar (n : string)
| Question.

(** SQL text as the template literals build it: literal text, interpolated
    identifiers and parameter markers, in order. *)
Inductive Piece :=
| Lit (text : string)
| Id (i : Ident)
| Mark (m : Marker).

(** The statements [hot.ts] sends through [em.query(sql, params)], one
    constructor per template literal, with the interpolated identifiers
    and the bound parameters. *)
Inductive Query :=
| SelectByIds (table : Ident) (ids : list string)
| InsertChangeLog (schema : Ident) (height index : list Z) (changes : list Json)
| SelectChangeLog (schema : Ident) (blockHeight : Z)
| DeleteById (table : Ident) (rid : string)
| UpdateById (table : Ident) (columns : list Ident) (params : list value)
| InsertRow (table : Ident) (columns : list Ident) (params : list value)
| DeleteHotBlock (schema : Ident) (height : Z).

(** [items.join(sep)] on pieces of text. *)
Fixpoint joined (sep : string) (items : list (list Piece)) : list Piece :=
  match items with
  | [] => []
  | [x] => x
  | x :: rest => x ++ Lit sep :: joined sep rest
  end.

(** The text of each statement: [fetchEntities] (hot.ts:105),
    [writeChangeRows] (:122-124) and [rollbackBlock] (:147, :156, :160-164,
    :171-173, :181). The interpolated [columns] is [columns.join(',')],
    and [columns.fill('?')] is one [?] per column. *)
Definition template (q : Query) : list Piece :=
  match q with
  | SelectByIds table _ =>
      [Lit "SELECT * FROM "; Id table; Lit " WHERE id = ANY("; Mark (Dollar "1");
       Lit "::text[])"]
  | InsertChangeLog schema _ _ _ =>
      [Lit "INSERT INTO "; Id schema; Lit ".hot_change_log (block_height, index, change)";
       Lit " SELECT block_height, index, change::jsonb";
       Lit " FROM unnest("; Mark (Dollar "1"); Lit "::int[], "; Mark (Dollar "2");
       Lit "::int[], "; Mark (Dollar "3");
       Lit "::text[]) AS i(block_height, index, change)"]
  | SelectChangeLog schema _ =>
      [Lit "SELECT block_height, index, change FROM "; Id schema;
       Lit ".hot_change_log WHERE block_height = "; Mark Question;
       Lit " ORDER BY index DESC"]
  | DeleteById table _ =>
      [Lit "DELETE FROM "; Id table; Lit " WHERE id = "; Mark (Dollar "1")]
  | UpdateById table columns _ =>
      [Lit "UPDATE "; Id table; Lit " SET "]
        ++ joined ", " ((λ c, [Id c; Lit " = "; Mark Question]) <$> columns)
        ++ [Lit " WHERE id = "; Mark Question]
  | InsertRow table columns _ =>
      [Lit "INSERT INTO "; Id table; Lit " ("]
        ++ joined "," ((λ c, [Id c]) <$> columns)
        ++ [Lit ") VALUES ("]
        ++ joined ", " ((λ _, [Mark Question]) <$> columns)
        ++ [Lit ")"]
  | DeleteHotBlock schema _ =>
      [Lit "DELETE FROM "; Id schema; Lit ".hot_block WHERE height = "; Mark Question]
  end.

(** The identifiers a statement interpolates, and the parameter markers
    in its text. *)
Definition idents (q : Query) : list Ident :=
  omap (λ p, match p with Id i => Some i | _ => None end) (template q).

Definition markers (q : Query) : list Marker :=
  omap (λ p, match p with Mark m => Some m | _ => None end) (template q).

(** The answer of [em.query]. *)
Inductive Result :=
| Entities (rows : list Entity)
| ChangeRows (rows : list ChangeRow)
| Done.

(** The database behind the [EntityManager]: the entity tables, keyed by
    (table, id) with the remaining columns as the row, and the two tables
    of the status schema. *)
Record Db := mkDb {
  rows : gmap (string * string) Fields;
  hot_change_log : list ChangeRow;
  hot_block : gmap Z string
}.

(** How [hot_change_log.block_height] refers to [hot_block]: not at all,
    with [ON DELETE CASCADE], or with a plain foreign key. *)
Inductive Reference :=
| NoReference
| Cascade
| Restrict.

(** What the statements rely on of the [EntityManager] and the database
    behind it, none of it among the sources: the parameter markers the
    backend binds parameters to, the schema it reads bare text as (none
    when the text is no identifier), the schema that holds [hot_block] and
    [hot_change_log], and the reference between these two tables. *)
Record EntityManager := mkEntityManager {
  binds : Marker → bool;
  bare : string → option string;
  status : string;
  log_reference : Reference
}.

(** The schema or table an interpolated identifier names: the name itself
    when it went through [escape], what the backend reads the text as when
    it did not. *)
Definition named (em : EntityManager) (i : Ident) : option string :=
  match i with
  | Escaped name => Some name
  | Raw text => bare em text
  end.

(** The range of the casts [::int[]]. *)
Definition int4 (n : Z) : Prop := -2147483648 ≤ n ≤ 2147483647.

(** [SELECT * FROM t WHERE id = ANY(ids)]: the rows of [t] whose id is
    among [ids], each row once, in the table's own order. *)
Definition select_by_ids (t : string) (ids : list string)
    (rs : gmap (string * string) Fields) : list Entity :=
  (λ kv : string * string * Fields, mkEntity (kv.1.2) (kv.2)) <$>
    filter (λ kv : string * string * Fields, kv.1.1 = t ∧ kv.1.2 ∈ ids) (map_to_list rs).

(** [unnest(heights, indexes, changes)]: the arrays side by side. *)
Fixpoint unnest (hs ixs : list Z) (cs : list Json) : list ChangeRow :=
  match hs, ixs, cs with
  | h :: hs', i :: ixs', c :: cs' => mkChangeRow h i c :: unnest hs' ixs' cs'
  | _, _, _ => []
  end.

Definition log_key (r : ChangeRow) : Z * Z := (block_height r, index r).

(** [ORDER BY index DESC] as a comparator. *)
Definition index_desc (a b : ChangeRow) : Z := index b - index a.

(** The column list of a statement next to the parameters bound to it. *)
Definition bind_columns (columns : list Ident) (params : list value) : Fields :=
  list_to_map (zip (ident_name <$> columns) params).

(** [em.query(sql, params)]: what each statement does to the database.
    [None] is a rejected statement: a parameter marker the backend does
    not bind, a schema name that is not the status schema, a height or
    index outside [int], a primary key hit twice, a change row that keeps
    a row of [hot_block] from being deleted, parameters that do not fit
    the statement. The primary keys are [id] for an entity table and
    (block_height, index) for [hot_change_log]. *)
Definition em_query (em : EntityManager) (q : Query) (db : Db) : option (Result * Db) :=
  if negb (forallb (binds em) (markers q)) then None else
  match q with
  | SelectByIds table ids =>
      t ← named em table;
      Some (Entities (select_by_ids t ids (rows db)), db)
  | InsertChangeLog schema hs ixs cs =>
      let new := unnest hs ixs cs in
      if bool_decide (named em schema = Some (status em) ∧
                      Forall int4 hs ∧ Forall int4 ixs ∧
                      length hs = length cs ∧ length ixs = length cs ∧
                      NoDup (log_key <$> (hot_change_log db ++ new)))
      then Some (Done, mkDb (rows db) (hot_change_log db ++ new) (hot_block db))
      else None
  | SelectChangeLog schema h =>
      if bool_decide (named em schema = Some (status em)) then
        Some (ChangeRows
                (sort index_desc (filter (λ r, block_height r = h) (hot_change_log db))),
              db)
      else None
  | DeleteById table rid =>
      t ← named em table;
      Some (Done, mkDb (delete (t, rid) (rows db)) (hot_change_log db) (hot_block db))
  | UpdateById table columns params =>
      t ← named em table;
      match list.last params with
      | Some (Str rid) =>
          if bool_decide (length params = S (length columns)) then
            let k := (t, rid) in
            match rows db !! k with
            | Some row =>
                Some (Done, mkDb (<[k := bind_columns columns params ∪ row]> (rows db))
                                 (hot_change_log db) (hot_block db))
            | None => Some (Done, db)
            end
          else None
      | _ => None
      end
  | InsertRow table columns params =>
      t ← named em table;
      if bool_decide (length params = length columns ∧ NoDup (ident_name <$> columns)) then
        let cells := bind_columns columns params in
        match cells !! "id" with
        | Some (Str rid) =>
            let k := (t, rid) in
            match rows db !! k with
            | Some _ => None
            | None =>
                Some (Done, mkDb (<[k := delete "id" cells]> (rows db))
                                 (hot_change_log db) (hot_block db))
            end
        | _ => None
        end
      else None
  | DeleteHotBlock schema h =>
      if bool_decide (named em schema = Some (status em)) then
        let deleted := mkDb (rows db) (hot_change_log db) (delete h (hot_block db)) in
        match log_reference em with
        | NoReference => Some (Done, deleted)
        | Cascade =>
            Some (Done,
                  mkDb (rows db)
                    (filter (λ r, block_height r ≠ h) (hot_change_log db))
                    (delete h (hot_block db)))
        | Restrict =>
            if bool_decide (is_Some (hot_block db !! h) ∧
                            Exists (λ r, block_height r = h) (hot_change_log db))
            then None
            else Some (Done, deleted)
        end
      else None
  end.

(** [Object.keys(fields)] and [Object.values(fields)], in one order. *)
Definition keys (f : Fields) : list string := (map_to_list f).*1.
Definition values (f : Fields) : list value := (map_to_list f).*2.

(** [new Map(entries)]: a later entry replaces an earlier one. *)
Definition Map_of {V} (entries : list (string * V)) : gmap string V :=
  foldl (λ m kv, <[kv.1 := kv.2]> m) ∅ entries.

(** The class [ChangeTracker]. [this.em] is the [em] argument of the
    methods, with the database passed along;
    [getEntityMetadata(type).tableName] is the [table] argument. *)
Module ChangeTracker.

Record t := mk { statusSchema : string; blockHeight : Z; index : Z }.

(** [new ChangeTracker(em, statusSchema, blockHeight)] *)
Definition new (statusSchema : string) (blockHeight : Z) : t :=
  mk statusSchema blockHeight 0.

Definition fetchEntities_sql (table : string) (ids : list string) : Query :=
  SelectByIds (Escaped table) ids.

Definition fetchEntities (em : EntityManager) (table : string) (ids : list string)
    (db : Db) : option (list Entity * Db) :=
  '(res, db') ← em_query em (fetchEntities_sql table ids) db;
  match res with Entities es => Some (es, db') | _ => None end.

(** The statement of [writeChangeRows]; the status schema enters the
    text as it is, and every change as its JSON text. *)
Definition writeChangeRows_sql (self : t) (changes : list ChangeRecord) : Query :=
  let n := length changes in
  InsertChangeLog (Raw (statusSchema self))
    (replicate n (blockHeight self))
    (seqZ (index self) (Z.of_nat n))
    (JSON_stringify <$> changes).

(** [index[i] = this.index++] and [change[i] = JSON.stringify(changes[i])]
    for every change, then one bulk insert. *)
Definition writeChangeRows (em : EntityManager) (self : t) (changes : list ChangeRecord)
    (db : Db) : option (t * Db) :=
  '(_, db') ← em_query em (writeChangeRows_sql self changes) db;
  Some (mk (statusSchema self) (blockHeight self)
           (index self + Z.of_nat (length changes)), db').

Definition trackInsert (em : EntityManager) (self : t) (table : string)
    (entities : list Entity) (db : Db) : option (t * Db) :=
  writeChangeRows em self ((λ e, InsertRecord table (id e)) <$> entities) db.

Definition trackUpsert (em : EntityManager) (self : t) (table : string)
    (entities : list Entity) (db : Db) : option (t * Db) :=
  '(found, db1) ← fetchEntities em table (id <$> entities) db;
  let touchedRows := Map_of ((λ e, (id e, props e)) <$> found) in
  writeChangeRows em self
    ((λ e, match touchedRows !! id e with
           | Some fields => UpdateRecord table (id e) fields
           | None => InsertRecord table (id e)
           end) <$> entities) db1.

Definition trackDelete (em : EntityManager) (self : t) (table : string)
    (ids : list string) (db : Db) : option (t * Db) :=
  '(deletedEntities, db1) ← fetchEntities em table ids db;
  writeChangeRows em self
    ((λ e, DeleteRecord table (id e) (props e)) <$> deletedEntities) db1.

End ChangeTracker.

(** The statement the rollback loop sends for one change row; none for an
    update without columns ([setPairs.length] is 0). *)
Definition rollback_sql (rec : ChangeRow) : option Query :=
  match JSON_parse (change rec) with
  | InsertRecord table rid => Some (DeleteById (Escaped table) rid)
  | UpdateRecord table rid fields =>
      let setPairs := Escaped <$> keys fields in
      if bool_decide (setPairs = []) then None
      else Some (UpdateById (Escaped table) setPairs (values fields ++ [Str rid]))
  | DeleteRecord table rid fields =>
      Some (InsertRow (Escaped table) (Escaped <$> "id" :: keys fields)
                      (Str rid :: values fields))
  end.

(** [for (let rec of changes) { ... }] *)
Fixpoint rollback_loop (em : EntityManager) (changes : list ChangeRow) (db : Db)
    : option Db :=
  match changes with
  | [] => Some db
  | rec :: rest =>
      match rollback_sql rec with
      | Some q => '(_, db') ← em_query em q db; rollback_loop em rest db'
      | None => rollback_loop em rest db
      end
  end.

Definition rollbackBlock (statusSchema : string) (em : EntityManager) (blockHeight : Z)
    (db : Db) : option Db :=
  let schema := Escaped statusSchema in
  '(res, db1) ← em_query em (SelectChangeLog schema blockHeight) db;
  match res with
  | ChangeRows changes =>
      db2 ← rollback_loop em changes db1;
      '(_, db3) ← em_query em (DeleteHotBlock schema blockHeight) db2;
      Some db3
  | _ => None
  end.

(** *** The SQL text of a statement

    [escape] is [em.connection.driver.escape]. *)

Definition ident_text (escape : string → string) (i : Ident) : string :=
  match i with
  | Escaped name => escape name
  | Raw name => name
  end.

Definition marker_text (m : Marker) : string :=
  match m with
  | Dollar n => "$" ++ n
  | Question => "?"
  end%string.

Definition piece_text (escape : string → string) (p : Piece) : string :=
  match p with
  | Lit text => text
  | Id i => ident_text escape i
  | Mark m => marker_text m
  end.

Definition sql_text (escape : string → string) (q : Query) : string :=
  foldr (λ p text, piece_text escape p ++ text)%string "" (template q).

(** *** Notions for the statements about the tracker and the rollback *)

Abbreviation Rows := (gmap (string * string) Fields).

(** The rows [writeChangeRows] adds: the changes numbered from [i]. *)
Fixpoint stamp (h i : Z) (cs : list Json) : list ChangeRow :=
  match cs with
  | [] => []
  | c :: rest => mkChangeRow h i c :: stamp h (i + 1) rest
  end.

(** The row a change record is about. *)
Definition record_key (c : ChangeRecord) : string * string :=
  match c with
  | InsertRecord t i | UpdateRecord t i _ | DeleteRecord t i _ => (t, i)
  end.

End Hot.

(** ** interfaces/data, interfaces/evm and the gateway wire types

    The interface files are not among the sources; the shapes below are the
    ones the archive client and [processor.ts] read and build. *)

Module Data.

(** [Selector<Props> = {[K in Props]?: boolean}]: a key may be missing, or
    present with [true], [false] or [undefined] ([None]). *)
Abbreviation Selector := (gmap string (option bool)).

(** [Fields]: the user's field selection, per entity. The [log] selection
    may carry the flag [transaction]. *)
Module Fields.
Record t := mk {
  block : option Selector;
  transaction : option Selector;
  log : option Selector
}.
End Fields.

(** [DEFAULT_FIELDS]: a constant of [interfaces/data]. *)
Module DefaultFields.
Record t := mk { block : Selector; transaction : Selector; log : Selector }.
End DefaultFields.

(** [EvmTopicSet] *)
Abbreviation EvmTopicSet := (list (list string)).

Module LogRequest.
Record t := mk { address : option (list string); filter : option EvmTopicSet }.
End LogRequest.

Module TransactionRequest.
Record t := mk {
  from : option (list string);
  to : option (list string);
  sighash : option (list string)
}.
End TransactionRequest.

Module DataRequest.
Record t := mk {
  includeAllBlocks : option bool;
  logs : option (list LogRequest.t);
  transactions : option (list TransactionRequest.t);
  fields : option Fields.t
}.
End DataRequest.

(** [Range] of [util-internal-processor-tools]: [{from, to?}]. *)
Module Range.
Record t := mk { from : Z; to : option Z }.
End Range.

(** [BatchRequest<DataRequest>] *)
Module BatchRequest.
Record t := mk { range : Range.t; request : DataRequest.t }.
End BatchRequest.

End Data.

Module Evm.

(** A property value of a mapped block, transaction or log: a string, an
    array of strings, an integer number, a number that is no integer
    (with its text), [NaN], a [bigint], [null] or a boolean. *)
Inductive value :=
| Text (s : string)
| Texts (l : list string)
| Number (n : Z)
| Fraction (text : string)
| NaN
| BigInt (n : Z)
| JsNull
| Boolean (b : bool).

#[export] Instance value_eq_dec : EqDecision value.
Proof. solve_decision. Defined.

(** [EvmBlock] as [mapGatewayBlockHeader] builds it: the properties [id],
    [height] and [hash] it starts with, and the properties the loop adds,
    in the order added. *)
Module EvmBlock.
Record t := mk {
  id : value;
  height : value;
  hash : string;
  props : list (string * value)
}.
End EvmBlock.

Module EvmTransaction.
Record t := mk { id : string; index : Z; props : list (string * value) }.
End EvmTransaction.

Module EvmLog.
Record t := mk {
  id : string;
  index : Z;
  transactionIndex : option Z;
  props : list (string * value)
}.
End EvmLog.

(** [FullBlockData['items']]: [{kind: 'transaction', transaction}] or
    [{kind: 'log', log, transaction?}]. *)
Inductive Item :=
| TransactionItem (transaction : EvmTransaction.t)
| LogItem (log : EvmLog.t) (transaction : option EvmTransaction.t).

Module FullBlockData.
Record t := mk { header : EvmBlock.t; items : list Item }.
End FullBlockData.

(** [BatchResponse<FullBlockData>] *)
Module BatchRange.
Record t := mk { from : Z; to : Z }.
End BatchRange.

Module BatchResponse.
Record t := mk {
  range : BatchRange.t;
  blocks : list FullBlockData.t;
  chainHeight : Z
}.
End BatchResponse.

End Evm.

Module gw.

(** A JSON value on the wire, as [JSON.parse] hands it over: a string, an
    array of strings, a number that is an integer (rounded already when
    beyond 2^53), a number that is none (with its text), [null] or a
    boolean. *)
Inductive wire :=
| WText (s : string)
| WTexts (l : list string)
| WNumber (n : Z)
| WFraction (text : string)
| WNull
| WBool (b : bool).

Module FieldSelection.
Record t := mk {
  block : option Data.Selector;
  transaction : option Data.Selector;
  log : option Data.Selector
}.
End FieldSelection.

Module TransactionRequest.
Record t := mk {
  to : option (list string);
  from : option (list string);
  sighash : option (list string);
  fieldSelection : FieldSelection.t
}.
End TransactionRequest.

Module LogRequest.
Record t := mk {
  address : option (list string);
  topics : list (list string);
  fieldSelection : FieldSelection.t
}.
End LogRequest.

Module BatchRequest.
Record t := mk {
  fromBlock : Z;
  toBlock : option Z;
  includeAllBlocks : bool;
  transactions : list TransactionRequest.t;
  logs : list LogRequest.t
}.
End BatchRequest.

(** A block, a transaction and a log as the archive sends them: the always
    present keys, and the other keys of the object in their order. *)
Module Block.
Record t := mk { number : Z; hash : string; props : list (string * wire) }.
End Block.

Module Transaction.
Record t := mk { index : Z; props : list (string * wire) }.
End Transaction.

Module Log.
Record t := mk { index : Z; transactionIndex : option Z; props : list (string * wire) }.
End Log.

Module BlockData.
Record t := mk {
  block : Block.t;
  transactions : list Transaction.t;
  logs : list Log.t
}.
End BlockData.

Module BatchResponse.
Record t := mk {
  data : list (list BlockData.t);
  nextBlock : Z;
  archiveHeight : Z
}.
End BatchResponse.

End gw.

(** ** The archive client of the EVM processor *)

Module Archive.
Import Js Data Evm.

(** What a call can throw. The context a handler adds to an error
    ([withErrorContext], [addErrorContext]) does not change its kind. *)
Inductive Error :=
| HttpError
| AssertionError
| SyntaxError
| TypeError
| RangeError.

Inductive Result (A : Type) :=
| Ok (a : A)
| Throw (e : Error).
Arguments Ok {A} a.
Arguments Throw {A} e.

Definition try_bind {A B} (r : Result A) (k : A → Result B) : Result B :=
  match r with
  | Ok a => k a
  | Throw e => Throw e
  end.

Notation "'try' x <- r ; k" := (try_bind r (λ x, k))
  (at level 10, x name, r at level 100, k at level 200).

Fixpoint try_map {A B} (f : A → Result B) (l : list A) : Result (list B) :=
  match l with
  | [] => Ok []
  | x :: rest => try y <- f x; try ys <- try_map f rest; Ok (y :: ys)
  end.

(** A loop that updates [acc] and stops at the first error. *)
Fixpoint try_fold {A B} (f : B → A → Result B) (acc : B) (l : list A) : Result B :=
  match l with
  | [] => Ok acc
  | x :: rest => try acc' <- f acc x; try_fold f acc' rest
  end.

(** [for (let key in selection)]: a key set to [true] is switched on, a
    key set to [false] is set to [undefined], a key that is [undefined]
    keeps the default. *)
Definition mergeDefaultFields (defaults : Selector) (selection : option Selector) : Selector :=
  map_fold (λ key v result,
              match v with
              | Some true => <[key := Some true]> result
              | Some false => <[key := None]> result
              | None => result
              end)
           defaults (default ∅ selection).

(** [!!x] on an optional boolean. *)
Definition truthy (x : option bool) : bool := default false x.

Section Client.
Variable DEFAULT_FIELDS : DefaultFields.t.

Definition toFieldSelection (fields : option Fields.t) : gw.FieldSelection.t :=
  let logFields := delete "transaction" (default ∅ (fields ≫= Fields.log)) in
  gw.FieldSelection.mk
    (Some (<["number" := Some true]> (<["hash" := Some true]>
       (mergeDefaultFields (DefaultFields.block DEFAULT_FIELDS) (fields ≫= Fields.block)))))
    (Some (<["index" := Some true]>
       (mergeDefaultFields (DefaultFields.transaction DEFAULT_FIELDS)
          (fields ≫= Fields.transaction))))
    (Some (<["transactionIndex" := Some true]> (<["index" := Some true]>
       (mergeDefaultFields (DefaultFields.log DEFAULT_FIELDS) (Some logFields))))).

(** [fields?.log?.transaction] as a condition. *)
Definition wantsLogTransaction (fields : option Fields.t) : bool :=
  match fields ≫= Fields.log with
  | Some logSelection => truthy (mjoin (logSelection !! "transaction"))
  | None => false
  end.

(** The first part of [getFinalizedBatch]: the query [q]. *)
Definition archiveQuery (request : BatchRequest.t) : gw.BatchRequest.t :=
  let range := BatchRequest.range request in
  let req := BatchRequest.request request in
  let fields := DataRequest.fields req in
  let fieldSelection := toFieldSelection fields in
  gw.BatchRequest.mk
    (Range.from range)
    (Range.to range)
    (truthy (DataRequest.includeAllBlocks req))
    ((λ tx,
        gw.TransactionRequest.mk
          (TransactionRequest.to tx) (TransactionRequest.from tx)
          (TransactionRequest.sighash tx)
          (gw.FieldSelection.mk (gw.FieldSelection.block fieldSelection)
             (gw.FieldSelection.transaction fieldSelection) None))
       <$> default [] (DataRequest.transactions req))
    ((λ log,
        gw.LogRequest.mk
          (LogRequest.address log)
          (default [] (LogRequest.filter log))
          (if wantsLogTransaction fields then fieldSelection
           else gw.FieldSelection.mk (gw.FieldSelection.block fieldSelection) None
                  (gw.FieldSelection.log fieldSelection)))
       <$> default [] (DataRequest.logs req)).

(** [formatId] of [../util], and the parsers behind [BigInt(text)] (no
    result: a [SyntaxError]) and [Number(text)] (a number, [NaN]
    included). *)
Variable formatId : value → string → option Z → string.
Variable parseBigInt : string → option Z.
Variable parseNumber : string → value.

(** [header[key] = src[key]]: the value as it is. *)
Definition copy (v : gw.wire) : value :=
  match v with
  | gw.WText s => Text s
  | gw.WTexts l => Texts l
  | gw.WNumber n => Number n
  | gw.WFraction text => Fraction text
  | gw.WNull => JsNull
  | gw.WBool b => Boolean b
  end.

(** [BigInt(text)] *)
Definition textToBigInt (s : string) : Result value :=
  match parseBigInt s with
  | Some n => Ok (BigInt n)
  | None => Throw SyntaxError
  end.

(** [BigInt(v)]: a number that is no integer is a [RangeError], [null] a
    [TypeError], a boolean 0 or 1; an array is read as its [join(',')]. *)
Definition toBigInt (v : gw.wire) : Result value :=
  match v with
  | gw.WText s => textToBigInt s
  | gw.WTexts l => textToBigInt (join "," l)
  | gw.WNumber n => Ok (BigInt n)
  | gw.WFraction _ => Throw RangeError
  | gw.WNull => Throw TypeError
  | gw.WBool b => Ok (BigInt (if b then 1 else 0))
  end.

(** [Number(v)] *)
Definition toNumber (v : gw.wire) : value :=
  match v with
  | gw.WText s => parseNumber s
  | gw.WTexts l => parseNumber (join "," l)
  | gw.WNumber n => Number n
  | gw.WFraction text => Fraction text
  | gw.WNull => Number 0
  | gw.WBool b => Number (if b then 1 else 0)
  end.

Definition header_bigints : list string :=
  ["nonce"; "difficulty"; "totalDifficulty"; "size"; "gasUsed"; "gasLimit"; "baseFeePerGas"].

(** [obj[key] = v] on the properties added so far: a key that is there
    keeps its place and gets the value, a new key goes to the end. *)
Fixpoint set_prop (key : string) (v : value) (props : list (string * value))
    : list (string * value) :=
  match props with
  | [] => [(key, v)]
  | (k, w) :: rest =>
      if bool_decide (k = key) then (k, v) :: rest else (k, w) :: set_prop key v rest
  end.

(** [header[key] = v], for a key other than [hash]: the keys [id] and
    [height] are properties the header has from the start. *)
Definition assign (key : string) (v : value) (header : EvmBlock.t) : EvmBlock.t :=
  if bool_decide (key = "id") then
    EvmBlock.mk v (EvmBlock.height header) (EvmBlock.hash header) (EvmBlock.props header)
  else if bool_decide (key = "height") then
    EvmBlock.mk (EvmBlock.id header) v (EvmBlock.hash header) (EvmBlock.props header)
  else
    EvmBlock.mk (EvmBlock.id header) (EvmBlock.height header) (EvmBlock.hash header)
      (set_prop key v (EvmBlock.props header)).

(** One turn of the [for (key in src)] loop of [mapGatewayBlockHeader]. *)
Definition header_step (header : EvmBlock.t) (kv : string * gw.wire) : Result EvmBlock.t :=
  let key := kv.1 in
  if bool_decide (key = "number" ∨ key = "hash") then Ok header
  else if bool_decide (key = "timestamp") then Ok (assign key (toNumber kv.2) header)
  else if bool_decide (key ∈ header_bigints) then
    try n <- toBigInt kv.2; Ok (assign key n header)
  else Ok (assign key (copy kv.2) header).

Definition mapGatewayBlockHeader (src : gw.Block.t) : Result EvmBlock.t :=
  try_fold header_step
    (EvmBlock.mk
       (Text (formatId (Number (gw.Block.number src)) (gw.Block.hash src) None))
       (Number (gw.Block.number src))
       (gw.Block.hash src)
       [])
    (gw.Block.props src).

Definition transaction_copied : list string :=
  ["from"; "to"; "hash"; "input"; "r"; "s"; "chainId"; "yParity"].

Definition transaction_bigints : list string :=
  ["gas"; "gasPrice"; "nonce"; "value"; "v"; "maxFeePerGas"; "maxPriorityFeePerGas"].

Definition transaction_prop (kv : string * gw.wire) : Result (option (string * value)) :=
  let key := kv.1 in
  if bool_decide (key ∈ transaction_copied) then Ok (Some (key, copy kv.2))
  else if bool_decide (key ∈ transaction_bigints) then
    try n <- toBigInt kv.2; Ok (Some (key, n))
  else Ok None.

Definition mapGatewayTransaction (blockHeight : value) (blockHash : string)
    (src : gw.Transaction.t) : Result EvmTransaction.t :=
  try props <- try_map transaction_prop (gw.Transaction.props src);
  Ok (EvmTransaction.mk
        (formatId blockHeight blockHash (Some (gw.Transaction.index src)))
        (gw.Transaction.index src)
        (omap (λ p, p) props)).

Definition log_copied : list string := ["transactionHash"; "address"; "data"; "topics"].

Definition mapGatewayLog (blockHeight : value) (blockHash : string) (src : gw.Log.t)
    : EvmLog.t :=
  EvmLog.mk
    (formatId blockHeight blockHash (Some (gw.Log.index src)))
    (gw.Log.index src)
    (gw.Log.transactionIndex src)
    ((λ kv, (kv.1, copy kv.2)) <$>
       filter (λ kv : string * gw.wire, kv.1 ∈ log_copied) (gw.Log.props src)).

(** [blockItemOrder] of [../util]. *)
Variable blockItemOrder : Item → Item → Z.

Definition mapGatewayBlock (src : gw.BlockData.t) : Result FullBlockData.t :=
  try header <- mapGatewayBlockHeader (gw.BlockData.block src);
  try txs <- try_map (mapGatewayTransaction (EvmBlock.height header) (EvmBlock.hash header))
               (gw.BlockData.transactions src);
  let txIndex : gmap Z EvmTransaction.t :=
    foldl (λ m tx, <[EvmTransaction.index tx := tx]> m) ∅ txs in
  let logItems :=
    (λ gl,
       let log := mapGatewayLog (EvmBlock.height header) (EvmBlock.hash header) gl in
       LogItem log (EvmLog.transactionIndex log ≫= (txIndex !!.)))
      <$> gw.BlockData.logs src in
  Ok (FullBlockData.mk header (sort blockItemOrder ((TransactionItem <$> txs) ++ logItems))).

(** Adds [{blockHeight, blockHash}] to the error and throws it again. *)
Definition tryMapGatewayBlock (src : gw.BlockData.t) : Result FullBlockData.t :=
  mapGatewayBlock src.

(** [a - b] as the sort reads it: the difference of two integers, and for
    operands that are not both integers [difference a b], its sign (0 when
    the difference is no number). *)
Variable difference : value → value → Z.

Definition minus (a b : value) : Z :=
  match a, b with
  | Number x, Number y => x - y
  | _, _ => difference a b
  end.

Definition by_height (a b : FullBlockData.t) : Z :=
  minus (EvmBlock.height (FullBlockData.header a)) (EvmBlock.height (FullBlockData.header b)).

(** The two loops over [res.data] and the sort of [batch.blocks]. *)
Definition mapBlocks (res : gw.BatchResponse.t) : Result (list FullBlockData.t) :=
  try blocks <- try_map tryMapGatewayBlock (concat (gw.BatchResponse.data res));
  Ok (sort by_height blocks).

(** The archive behind [this.http.post('/query', {json: q})]: its answer to
    [q] after the queries sent so far; no answer is a rejected request. *)
Variable http_post : list gw.BatchRequest.t → gw.BatchRequest.t → option gw.BatchResponse.t.

(** A call of the client: it may throw, and it adds to the queries sent. *)
Definition IO (A : Type) : Type :=
  list gw.BatchRequest.t → Result A * list gw.BatchRequest.t.

Definition ret {A} (a : A) : IO A := λ sent, (Ok a, sent).

Definition lift {A} (r : Result A) : IO A := λ sent, (r, sent).

Definition bind {A B} (m : IO A) (k : A → IO B) : IO B :=
  λ sent,
    match m sent with
    | (Ok a, sent') => k a sent'
    | (Throw e, sent') => (Throw e, sent')
    end.

Notation "'await' x <- m ; k" := (bind m (λ x, k))
  (at level 10, x name, m at level 100, k at level 200).

Definition query (q : gw.BatchRequest.t) : IO gw.BatchResponse.t :=
  λ sent,
    (match http_post sent q with
     | Some res => Ok res
     | None => Throw HttpError
     end, sent ++ [q]).

(** The query of [fetchBlockHeader]. *)
Definition fetchBlockHeader_query (height : Z) (fieldSelection : gw.FieldSelection.t)
    : gw.BatchRequest.t :=
  gw.BatchRequest.mk height (Some height) true
    [gw.TransactionRequest.mk None None None fieldSelection]
    [].

Definition fetchBlockHeader (height : Z) (fieldSelection : gw.FieldSelection.t)
    : IO EvmBlock.t :=
  await res <- query (fetchBlockHeader_query height fieldSelection);
  match gw.BatchResponse.data res with
  | [[bd]] => lift (mapGatewayBlockHeader (gw.BlockData.block bd))
  | _ => lift (Throw AssertionError)
  end.

(** [maybeLast(batch.blocks)?.header.height] *)
Definition last_height (blocks : list FullBlockData.t) : option value :=
  (λ b, EvmBlock.height (FullBlockData.header b)) <$> maybeLast blocks.

Definition getFinalizedBatch (request : BatchRequest.t) : IO BatchResponse.t :=
  let q := archiveQuery request in
  let fields := DataRequest.fields (BatchRequest.request request) in
  let fieldSelection := toFieldSelection fields in
  await res <- query q;
  let lastBlock := gw.BatchResponse.nextBlock res - 1 in
  let range := BatchRange.mk (Range.from (BatchRequest.range request)) lastBlock in
  await blocks <- lift (mapBlocks res);
  if bool_decide (last_height blocks ≠ Some (Number (BatchRange.to range))) then
    await lastBlockHeader <- fetchBlockHeader (BatchRange.to range) fieldSelection;
    ret (BatchResponse.mk range
           (blocks ++ [FullBlockData.mk lastBlockHeader []])
           (gw.BatchResponse.archiveHeight res))
  else
    ret (BatchResponse.mk range blocks (gw.BatchResponse.archiveHeight res)).

End Client.

(** Modelled from the spec: the constant [DEFAULT_FIELDS] of
    [interfaces/data], which is not among the sources. Glossary, "Default
    field projection": block [{number, hash, parentHash, timestamp}],
    transaction [{hash, from, to, input}], log [{address, topics, data,
    transactionHash}]. *)
Definition all_on (keys : list string) : Selector :=
  list_to_map ((λ k, (k, Some true)) <$> keys).

Definition DEFAULT_FIELDS : DefaultFields.t :=
  DefaultFields.mk
    (all_on ["number"; "hash"; "parentHash"; "timestamp"])
    (all_on ["hash"; "from"; "to"; "input"])
    (all_on ["address"; "topics"; "data"; "transactionHash"]).

(** A field mask as it reaches the archive: the JSON body leaves out a key
    that is [undefined]. *)
Definition sent (mask : option Selector) : gmap string bool :=
  omap (λ v, v) (default ∅ mask).

(** A [gw.FieldSelection] read as a [Fields] object. *)
Definition as_fields (fs : gw.FieldSelection.t) : Fields.t :=
  Fields.mk (gw.FieldSelection.block fs) (gw.FieldSelection.transaction fs)
    (gw.FieldSelection.log fs).

(** *** Notions for the statements about the field selector and the batch *)

(** The merge, key by key. *)
Definition merged (d : option (option bool)) (s : option (option bool))
    : option (option bool) :=
  match s with
  | Some (Some true) => Some (Some true)
  | Some (Some false) => Some None
  | _ => d
  end.

(** Applying the selector to its own output. *)
Definition reselect (D : DefaultFields.t) (fields : option Fields.t) : gw.FieldSelection.t :=
  toFieldSelection D (Some (as_fields (toFieldSelection D fields))).

Definition same_masks (a b : gw.FieldSelection.t) : Prop :=
  sent (gw.FieldSelection.block a) = sent (gw.FieldSelection.block b) ∧
  sent (gw.FieldSelection.transaction a) = sent (gw.FieldSelection.transaction b) ∧
  sent (gw.FieldSelection.log a) = sent (gw.FieldSelection.log b).

(** A key on which the selector, applied to its own output, sends what it
    sent the first time: the user switched it on; or the defaults hold no
    boolean for it; or the default is on and the user did not switch it
    off. *)
Definition stable (d s : option (option bool)) : Prop :=
  s = Some (Some true) ∨ mjoin d = None ∨ (d = Some (Some true) ∧ s ≠ Some (Some false)).

Definition stable_on (exempt : list string) (defaults selection : Selector) : Prop :=
  ∀ key, key ∉ exempt → stable (defaults !! key) (selection !! key).

(** Every key is stable, the always-on keys and the flag [transaction] of
    the log selection apart. *)
Definition stable_selection (D : DefaultFields.t) (fields : option Fields.t) : Prop :=
  stable_on ["hash"; "number"] (DefaultFields.block D) (default ∅ (fields ≫= Fields.block)) ∧
  stable_on ["index"] (DefaultFields.transaction D)
    (default ∅ (fields ≫= Fields.transaction)) ∧
  stable_on ["index"; "transactionIndex"; "transaction"] (DefaultFields.log D)
    (default ∅ (fields ≫= Fields.log)).

(** The value a block on the wire holds under a key other than [number]
    and [hash]. *)
Definition wire_prop (key : string) (b : gw.Block.t) : option gw.wire :=
  snd <$> list.last (filter (λ kv : string * gw.wire, kv.1 = key) (gw.Block.props b)).

(** The height a block on the wire stands for in a batch: its key
    [height] when it has one, its [number] when it has none. *)
Definition wire_height (b : gw.Block.t) : value :=
  from_option copy (Number (gw.Block.number b)) (wire_prop "height" b).


(** What the follow-up query asks for beyond the header. *)
Definition header_only (fs : gw.FieldSelection.t) : Prop :=
  sent (gw.FieldSelection.transaction fs) = ∅ ∧ sent (gw.FieldSelection.log fs) = ∅.

(** [block.header.height], the key [batch.blocks] is sorted by. *)
Definition height_of (b : FullBlockData.t) : value :=
  EvmBlock.height (FullBlockData.header b).

(** The integers of a list of heights that are all integers. *)
Definition integers (heights : list value) : option (list Z) :=
  mapM (λ v, match v with Number n => Some n | _ => None end) heights.

End Archive.

(** ** processor.ts: [EvmBatchProcessor] *)

Module Processor.
Import Js Data.

(** [DataSource = ArchiveDataSource | ChainDataSource] *)
Module DataSource.
Record t := mk { archive : option string; chain : option string }.
End DataSource.

(** [string | string[]] *)
Inductive OneOrMany :=
| One (s : string)
| Many (l : list string).

Module LogOptions.
Record t := mk {
  address : option OneOrMany;
  filter : option EvmTopicSet;
  range : option Range.t
}.
End LogOptions.

Module TransactionOptions.
Record t := mk {
  to : option OneOrMany;
  from : option OneOrMany;
  sighash : option OneOrMany;
  range : option Range.t
}.
End TransactionOptions.

Definition toRequestList (val : option OneOrMany) : option (list string) :=
  match val with
  | None => None
  | Some v =>
      let val := match v with One s => [s] | Many l => l end in
      match val with
      | [] => None
      | _ => Some (toLowerCase <$> val)
      end
  end.

Definition concatRequestLists {T} (a b : option (list T)) : option (list T) :=
  let result := [] ++ default [] a ++ default [] b in
  match result with
  | [] => None
  | _ => Some result
  end.

(** The function [merge] handed to [mergeBatchRequests]. *)
Definition merge (a b : DataRequest.t) : DataRequest.t :=
  DataRequest.mk
    (if (Archive.truthy (DataRequest.includeAllBlocks a)
         || Archive.truthy (DataRequest.includeAllBlocks b))%bool
     then Some true else None)
    (concatRequestLists (DataRequest.logs a) (DataRequest.logs b))
    (concatRequestLists (DataRequest.transactions a) (DataRequest.transactions b))
    None.

(** [number | string], the port of the metrics server. *)
Inductive Port :=
| PortNumber (n : Z)
| PortText (s : string).

(** The fields of the class; [prometheusPort] is the port held by the
    server object of [getPrometheusServer]. *)
Record EvmBatchProcessor := mkProcessor {
  requests : list BatchRequest.t;
  src : option DataSource.t;
  blockRange : option Range.t;
  fields : option Fields.t;
  running : bool;
  prometheusPort : option Port
}.

(** [new EvmBatchProcessor()] *)
Definition new : EvmBatchProcessor := mkProcessor [] None None None false None.

(** [new Error(message)] *)
Inductive Error := mkError (message : string).

(** A method call: it returns or throws, and leaves the object in a state. *)
Definition Method (A : Type) : Type :=
  EvmBatchProcessor → (Error + A) * EvmBatchProcessor.

Definition bind {A B} (m : Method A) (k : A → Method B) : Method B :=
  λ self,
    match m self with
    | (inr a, self') => k a self'
    | (inl e, self') => (inl e, self')
    end.

Notation "m ;; k" := (bind m (λ _, k)) (at level 100, k at level 200, right associativity).

Definition update (f : EvmBatchProcessor → EvmBatchProcessor) : Method unit :=
  λ self, (inr tt, f self).

Definition assertNotRunning : Method unit :=
  λ self,
    if running self
    then (inl (mkError "Settings modifications are not allowed after start of processing"), self)
    else (inr tt, self).

Definition add (request : DataRequest.t) (range : option Range.t) : Method unit :=
  update (λ self,
    mkProcessor
      (requests self ++ [BatchRequest.mk (default (Range.mk 0 None) range) request])
      (src self) (blockRange self) (fields self) (running self) (prometheusPort self)).

Definition setFields (fs : Fields.t) : Method unit :=
  assertNotRunning ;;
  update (λ self,
    mkProcessor (requests self) (src self) (blockRange self) (Some fs) (running self)
      (prometheusPort self)).

Definition addLog (options : LogOptions.t) : Method unit :=
  assertNotRunning ;;
  add (DataRequest.mk None
         (Some [LogRequest.mk
                  (toRequestList (LogOptions.address options))
                  (match LogOptions.filter options with
                   | Some ((_ :: _) as filter) => Some filter
                   | _ => None
                   end)])
         None None)
      (LogOptions.range options).

Definition addTransaction (options : TransactionOptions.t) : Method unit :=
  assertNotRunning ;;
  add (DataRequest.mk None None
         (Some [TransactionRequest.mk
                  (toRequestList (TransactionOptions.from options))
                  (toRequestList (TransactionOptions.to options))
                  (toRequestList (TransactionOptions.sighash options))])
         None)
      (TransactionOptions.range options).

Definition setPrometheusPort (port : Port) : Method unit :=
  assertNotRunning ;;
  update (λ self,
    mkProcessor (requests self) (src self) (blockRange self) (fields self) (running self)
      (Some port)).

Definition includeAllBlocks (range : option Range.t) : Method unit :=
  assertNotRunning ;;
  add (DataRequest.mk (Some true) None None None) range.

Definition setBlockRange (range : option Range.t) : Method unit :=
  assertNotRunning ;;
  update (λ self,
    mkProcessor (requests self) (src self) range (fields self) (running self)
      (prometheusPort self)).

Definition setDataSource (source : DataSource.t) : Method unit :=
  assertNotRunning ;;
  update (λ self,
    mkProcessor (requests self) (Some source) (blockRange self) (fields self) (running self)
      (prometheusPort self)).

(** [run(database, handler)], as far as the object is concerned: the check,
    then [this.running = true]. The logger and the program started by
    [runProgram] do not write to the fields. *)
Definition run {Database Handler : Type} (database : Database) (handler : Handler)
    : Method unit :=
  assertNotRunning ;;
  update (λ self,
    mkProcessor (requests self) (src self) (blockRange self) (fields self) true
      (prometheusPort self)).

(** [requests.forEach(req => {req.request.fields = this.fields})] under
    [if (this.fields)]. *)
Definition writeFields (fs : option Fields.t) (reqs : list BatchRequest.t)
    : list BatchRequest.t :=
  match fs with
  | Some f =>
      (λ req,
         let r := BatchRequest.request req in
         BatchRequest.mk (BatchRequest.range req)
           (DataRequest.mk (DataRequest.includeAllBlocks r) (DataRequest.logs r)
              (DataRequest.transactions r) (Some f)))
        <$> reqs
  | None => reqs
  end.

Section BatchRequests.
(** [mergeBatchRequests] and [applyRangeBound] of
    [util-internal-processor-tools]. *)
Variable mergeBatchRequests :
  list BatchRequest.t → (DataRequest.t → DataRequest.t → DataRequest.t) → list BatchRequest.t.
Variable applyRangeBound : list BatchRequest.t → option Range.t → list BatchRequest.t.

Definition getBatchRequests (self : EvmBatchProcessor) : list BatchRequest.t :=
  let requests := mergeBatchRequests (requests self) merge in
  let requests := writeFields (fields self) requests in
  applyRangeBound requests (blockRange self).

End BatchRequests.

(** The error of [assertNotRunning]. *)
Definition locked : Error :=
  mkError "Settings modifications are not allowed after start of processing".

(** The strings of a [string | string[]] option. *)
Definition items (val : option OneOrMany) : list string :=
  match val with
  | None => []
  | Some (One s) => [s]
  | Some (Many l) => l
  end.

Definition getDataSource : Method DataSource.t :=
  λ self,
    match src self with
    | None =>
        (inl (mkError "use .setDataSource() to specify archive and/or chain RPC endpoint"),
         self)
    | Some source => (inr source, self)
    end.

(** *** Notions for the statements about chains of calls *)

(** A call of one of the public configuration methods. *)
Inductive Call :=
| SetFields (fs : Fields.t)
| AddLog (options : LogOptions.t)
| AddTransaction (options : TransactionOptions.t)
| SetPrometheusPort (port : Port)
| IncludeAllBlocks (range : option Range.t)
| SetBlockRange (range : option Range.t)
| SetDataSource (source : DataSource.t).

Definition call (c : Call) : Method unit :=
  match c with
  | SetFields fs => setFields fs
  | AddLog options => addLog options
  | AddTransaction options => addTransaction options
  | SetPrometheusPort port => setPrometheusPort port
  | IncludeAllBlocks range => includeAllBlocks range
  | SetBlockRange range => setBlockRange range
  | SetDataSource source => setDataSource source
  end.

(** [processor.m1(..).m2(..)...]: every method returns [this]. *)
Fixpoint chain (cs : list Call) : Method unit :=
  match cs with
  | [] => update (λ self, self)
  | c :: rest => call c ;; chain rest
  end.

(** The requests a call stores when made alone on a new processor. *)
Definition stored (c : Call) : list BatchRequest.t := requests (call c new).2.

(** What a call sets, if it is a setter. *)
Definition sets_fields (c : Call) : option Fields.t :=
  match c with SetFields fs => Some fs | _ => None end.

Definition sets_blockRange (c : Call) : option (option Range.t) :=
  match c with SetBlockRange range => Some range | _ => None end.

Definition sets_src (c : Call) : option DataSource.t :=
  match c with SetDataSource source => Some source | _ => None end.

Definition sets_port (c : Call) : option Port :=
  match c with SetPrometheusPort port => Some port | _ => None end.

End Processor.

(** ** Sample data *)

Module Examples.
Import Js Data Evm.

(** Text that is a plain identifier: a letter or [_], then letters, digits,
    [_] or [$]. *)
Definition plain_char (first : bool) (c : ascii) : bool :=
  let n := nat_of_ascii c in
  ((97 <=? n)%nat && (n <=? 122)%nat) || ((65 <=? n)%nat && (n <=? 90)%nat) || (n =? 95)%nat
  || (negb first && (((48 <=? n)%nat && (n <=? 57)%nat) || (n =? 36)%nat)).

Fixpoint plain_rest (s : string) : bool :=
  match s with
  | EmptyString => true
  | String c s' => plain_char false c && plain_rest s'
  end.

Definition plain (s : string) : bool :=
  match s with
  | EmptyString => false
  | String c s' => plain_char true c && plain_rest s'
  end.

(** A backend in the manner of PostgreSQL: parameters are bound to [$n]
    markers only; bare text names a schema when it is a plain identifier,
    read in lower case; the status schema is [squid], and deleting a row
    of [hot_block] deletes its change rows. *)
Definition postgres : Hot.EntityManager :=
  Hot.mkEntityManager
    (λ m, match m with Hot.Dollar _ => true | Hot.Question => false end)
    (λ text, if plain text then Some (toLowerCase text) else None)
    "squid" Hot.Cascade.


(** A table [item] with the row [a], and a tracker for block 7 that is
    told of two entities about to be saved, [a] and [b]. *)
Definition rowA : Hot.Fields := {[ "name" := Str "x"; "qty" := Num 1 ]}.
Definition rowB : Hot.Fields := {[ "name" := Str "y"; "qty" := Num 2 ]}.

Definition db0 : Hot.Db := Hot.mkDb {[ ("item", "a") := rowA ]} [] ∅.

Definition saved : list Hot.Entity := [Hot.mkEntity "a" rowB; Hot.mkEntity "b" rowA].

Definition tracker7 : Hot.ChangeTracker.t := Hot.ChangeTracker.new "squid" 7.

Definition db7_saved : Hot.Db :=
  from_option snd db0 (Hot.ChangeTracker.trackUpsert postgres tracker7 "item" saved db0).

(** The database once the two entities are written, next to a row [c]
    that the block did not touch, with the block's row in [hot_block]. *)
Definition db7_written : Hot.Db :=
  Hot.mkDb {[ ("item", "a") := rowB; ("item", "b") := rowA; ("item", "c") := rowA ]}
    (Hot.hot_change_log db7_saved) {[ 7 := "0x07" ]}.


(** What [trackInsert] and [trackDelete] leave behind on the sample
    database. *)
Definition db0_inserted : Hot.Db :=
  from_option snd db0 (Hot.ChangeTracker.trackInsert postgres tracker7 "item" saved db0).

Definition db0_deleted : Hot.Db :=
  from_option snd db0
    (Hot.ChangeTracker.trackDelete postgres tracker7 "item" ["a"; "zz"; "a"] db0).

(** An archive client whose ids are the block hashes, with no number
    parsing and no item order. *)
Definition formatId (height : value) (hash : string) (index : option Z) : string := hash.
Definition no_parse (text : string) : option Z := None.
Definition no_number (text : string) : value := NaN.
Definition any_order (a b : Item) : Z := 0.
Definition no_difference (a b : value) : Z := 0.

Definition request_40_50 : BatchRequest.t :=
  BatchRequest.mk (Range.mk 40 (Some 50)) (DataRequest.mk None None None None).

Definition block_at (number : Z) : gw.BlockData.t :=
  gw.BlockData.mk (gw.Block.mk number "0xabc" []) [] [].

(** Scenario S2: the archive has no block for the request and answers
    [{data: [], nextBlock: 51, archiveHeight: 100}]; asked for a single
    height, it sends the block of that height. *)
Definition archive (sent : list gw.BatchRequest.t) (q : gw.BatchRequest.t)
    : option gw.BatchResponse.t :=
  match sent with
  | [] => Some (gw.BatchResponse.mk [] 51 100)
  | _ => Some (gw.BatchResponse.mk [[block_at (gw.BatchRequest.fromBlock q)]] 51 100)
  end.


Definition getFinalizedBatch
    (http_post : list gw.BatchRequest.t → gw.BatchRequest.t → option gw.BatchResponse.t) :=
  Archive.getFinalizedBatch Archive.DEFAULT_FIELDS formatId no_parse no_number any_order
    no_difference http_post.

Definition stub (number : Z) : FullBlockData.t :=
  FullBlockData.mk (EvmBlock.mk (Text "0xabc") (Number number) "0xabc" []) [].

Definition batch_40_50 : BatchResponse.t :=
  BatchResponse.mk (BatchRange.mk 40 50) [stub 50] 100.

Definition header_query_50 : gw.BatchRequest.t :=
  Archive.fetchBlockHeader_query 50 (Archive.toFieldSelection Archive.DEFAULT_FIELDS None).

(** A selection that adds a block field and asks for the transaction of a
    log. *)
Definition with_gas_used : option Fields.t :=
  Some (Fields.mk (Some {[ "gasUsed" := Some true ]}) None
          (Some {[ "transaction" := Some true ]})).

(** A selection that switches a default block field off. *)
Definition disable_timestamp : option Fields.t :=
  Some (Fields.mk (Some {[ "timestamp" := Some false ]}) None None).

(** A block on the wire with number 50 and a key [height] of its own. *)
Definition renumbered : gw.Block.t :=
  gw.Block.mk 50 "0xabc" [("height", gw.WNumber 7); ("gasUsed", gw.WNull)].

(** An archive that answers the header query with no block at all. *)
Definition silent_archive (sent : list gw.BatchRequest.t) (q : gw.BatchRequest.t)
    : option gw.BatchResponse.t :=
  Some (gw.BatchResponse.mk [] 51 100).

(** An answer whose blocks come in two groups and out of order. *)
Definition scattered : gw.BatchResponse.t :=
  gw.BatchResponse.mk [[block_at 45; block_at 41]; [block_at 43]] 51 100.

(** A transaction with a key the mapping does not name, and a block with
    two transactions and three logs: one of transaction 1, one naming a
    transaction the block does not hold, one naming none. *)
Definition tx_3 : gw.Transaction.t :=
  gw.Transaction.mk 3
    [("from", gw.WText "0xa"); ("foo", gw.WText "x"); ("gas", gw.WNumber 21000)].

Definition mapped_tx_3 : EvmTransaction.t :=
  EvmTransaction.mk "0x9" 3 [("from", Text "0xa"); ("gas", BigInt 21000)].

Definition block_9 : gw.BlockData.t :=
  gw.BlockData.mk (gw.Block.mk 9 "0x9" [])
    [gw.Transaction.mk 0 []; gw.Transaction.mk 1 []]
    [gw.Log.mk 0 (Some 1) []; gw.Log.mk 1 (Some 5) []; gw.Log.mk 2 None []].

Definition mapped_block_9 : FullBlockData.t :=
  FullBlockData.mk (EvmBlock.mk (Text "0x9") (Number 9) "0x9" [])
    [TransactionItem (EvmTransaction.mk "0x9" 0 []);
     TransactionItem (EvmTransaction.mk "0x9" 1 []);
     LogItem (EvmLog.mk "0x9" 0 (Some 1) []) (Some (EvmTransaction.mk "0x9" 1 []));
     LogItem (EvmLog.mk "0x9" 1 (Some 5) []) None;
     LogItem (EvmLog.mk "0x9" 2 None []) None].

(** A processor configured by a chain of calls that sets the data source
    twice. *)
Definition transfers : Processor.LogOptions.t :=
  Processor.LogOptions.mk (Some (Processor.Many ["0xA0B8"; "0xdac1"])) (Some [])
    (Some (Range.mk 100 (Some 200))).

Definition approvals : Processor.TransactionOptions.t :=
  Processor.TransactionOptions.mk (Some (Processor.One "0xA0B8")) None
    (Some (Processor.One "0x095EA7B3")) None.

Definition archive_only : Processor.DataSource.t :=
  Processor.DataSource.mk (Some "https://archive") None.

Definition archive_and_chain : Processor.DataSource.t :=
  Processor.DataSource.mk (Some "https://archive") (Some "wss://rpc").

Definition configuration : list Processor.Call :=
  [Processor.SetDataSource archive_only; Processor.AddLog transfers;
   Processor.SetDataSource archive_and_chain; Processor.AddTransaction approvals;
   Processor.IncludeAllBlocks None].

End Examples.

(** * Properties *)
Module HotFacts.
Import Js Hot.

Lemma select_entries (t : string) (ids : list string) (rs : Rows) :
  (λ e, ((t, id e), props e)) <$> select_by_ids t ids rs =
  filter (λ kv : string * string * Fields, kv.1.1 = t ∧ kv.1.2 ∈ ids) (map_to_list rs).
Proof.
  unfold select_by_ids. generalize (map_to_list rs). intros l.
  induction l as [|[[t' i] f] l IH]; [done|].
  rewrite filter_cons. case_decide as HP; simpl in HP.
  - destruct HP as [-> Hi]. rewrite !fmap_cons. simpl. f_equal. exact IH.
  - exact IH.
Qed.

Lemma select_keys (t : string) (ids : list string) (rs : Rows) :
  (λ e, (t, id e)) <$> select_by_ids t ids rs =
  (filter (λ kv : string * string * Fields, kv.1.1 = t ∧ kv.1.2 ∈ ids) (map_to_list rs)).*1.
Proof. rewrite <- select_entries. rewrite <- list_fmap_compose. done. Qed.

Lemma select_keys_NoDup (t : string) (ids : list string) (rs : Rows) :
  NoDup ((λ e, (t, id e)) <$> select_by_ids t ids rs).
Proof.
  rewrite select_keys.
  apply (sublist_NoDup _ (map_to_list rs).*1); [apply NoDup_fst_map_to_list|apply fmap_sublist, sublist_filter].
Qed.



Lemma unnest_stamp (h i : Z) (cs : list Json) :
  unnest (replicate (length cs) h) (seqZ i (Z.of_nat (length cs))) cs = stamp h i cs.
Proof.
  revert i. induction cs as [|c cs IH]; intros i; [done|].
  cbn [length]. rewrite replicate_S, seqZ_cons by lia. simpl. f_equal.
  rewrite <- IH. f_equal. f_equal; lia.
Qed.

Lemma stamp_imap {A} (h i : Z) (f : A → Json) (l : list A) :
  stamp h i (f <$> l) = imap (λ n x, mkChangeRow h (i + Z.of_nat n) (f x)) l.
Proof.
  revert i. induction l as [|x l IH]; intros i; [done|].
  rewrite fmap_cons. simpl. f_equal.
  - f_equal. lia.
  - rewrite IH. apply imap_ext. intros n y _. simpl. f_equal. lia.
Qed.

Lemma Map_of_union {V} (l : list (string * V)) (m : gmap string V) :
  foldl (λ m kv, <[kv.1 := kv.2]> m) m l = list_to_map (reverse l) ∪ m.
Proof.
  revert m. induction l as [|[k v] l IH]; intros m; simpl.
  - by rewrite (left_id_L ∅ (∪)).
  - rewrite IH, reverse_cons, list_to_map_app. simpl.
    rewrite <- (assoc_L (∪)). f_equal.
    rewrite insert_empty. by rewrite <- insert_union_singleton_l.
Qed.

Lemma Map_of_lookup {V} (l : list (string * V)) (k : string) (v : V) :
  NoDup l.*1 → Map_of l !! k = Some v ↔ (k, v) ∈ l.
Proof.
  intros Hnd. unfold Map_of. rewrite Map_of_union, (right_id_L ∅ (∪)).
  rewrite <- elem_of_list_to_map.
  - apply elem_of_reverse.
  - rewrite fmap_reverse. by rewrite reverse_Permutation.
Qed.

(** The map built by [trackUpsert] holds, for a requested id, the row the
    table holds. *)
Lemma touchedRows_lookup (t : string) (ids : list string) (rs : Rows) (i : string) :
  i ∈ ids →
  Map_of ((λ e, (id e, props e)) <$> select_by_ids t ids rs) !! i = rs !! (t, i).
Proof.
  intros Hi. apply option_eq. intros f. rewrite Map_of_lookup.
  - unfold select_by_ids. rewrite <- list_fmap_compose. rewrite list_elem_of_fmap. split.
    + intros [[[t' i'] f'] [Heq Hin]]. simpl in Heq. injection Heq as -> ->.
      apply list_elem_of_filter in Hin as [[Ht _] Hin]. simpl in Ht. subst t'.
      by apply elem_of_map_to_list in Hin.
    + intros Hk. exists ((t, i), f). split; [done|].
      apply list_elem_of_filter. split; [done|]. by apply elem_of_map_to_list.
  - rewrite <- list_fmap_compose.
    apply (NoDup_fmap_1 (pair t)). rewrite <- list_fmap_compose.
    apply (select_keys_NoDup t ids rs).
Qed.

Lemma append_assoc (a b c : string) : ((a ++ b) ++ c = a ++ b ++ c)%string.
Proof.
  induction a as [|x a IH]; [done|].
  change (String x ((a ++ b) ++ c) = String x (a ++ b ++ c))%string. by rewrite IH.
Qed.

Lemma append_nil_r (a : string) : (a ++ "" = a)%string.
Proof.
  induction a as [|x a IH]; [done|].
  change (String x (a ++ "") = String x a)%string. by rewrite IH.
Qed.

Lemma text_app escape (a b : list Piece) :
  foldr (λ p text, piece_text escape p ++ text)%string "" (a ++ b) =
    (foldr (λ p text, piece_text escape p ++ text) "" a ++
     foldr (λ p text, piece_text escape p ++ text) "" b)%string.
Proof.
  induction a as [|p a IH]; [done|].
  rewrite <- app_comm_cons. cbn [foldr]. by rewrite IH, append_assoc.
Qed.

Lemma text_joined escape (sep : string) (items : list (list Piece)) :
  foldr (λ p text, piece_text escape p ++ text)%string "" (joined sep items) =
    join sep (foldr (λ p text, piece_text escape p ++ text)%string "" <$> items).
Proof.
  induction items as [|x [|y items] IH]; [done|done|].
  change (joined sep (x :: y :: items)) with (x ++ Lit sep :: joined sep (y :: items)).
  rewrite text_app. cbn [foldr piece_text]. rewrite IH. done.
Qed.

(** The text of every statement, as the template literals of [hot.ts]
    spell it. *)
Lemma sql_text_spelled (escape : string → string) :
  let txt := ident_text escape in
  (∀ table ids,
     sql_text escape (SelectByIds table ids) =
       ("SELECT * FROM " ++ txt table ++ " WHERE id = ANY($1::text[])")%string) ∧
  (∀ schema hs ixs cs,
     sql_text escape (InsertChangeLog schema hs ixs cs) =
       ("INSERT INTO " ++ txt schema ++ ".hot_change_log (block_height, index, change)"
         ++ " SELECT block_height, index, change::jsonb"
         ++ " FROM unnest($1::int[], $2::int[], $3::text[]) AS i(block_height, index, change)")%string) ∧
  (∀ schema h,
     sql_text escape (SelectChangeLog schema h) =
       ("SELECT block_height, index, change FROM " ++ txt schema
         ++ ".hot_change_log WHERE block_height = ? ORDER BY index DESC")%string) ∧
  (∀ table rid,
     sql_text escape (DeleteById table rid) =
       ("DELETE FROM " ++ txt table ++ " WHERE id = $1")%string) ∧
  (∀ table columns params,
     sql_text escape (UpdateById table columns params) =
       ("UPDATE " ++ txt table ++ " SET "
         ++ join ", " ((λ c, txt c ++ " = ?") <$> columns) ++ " WHERE id = ?")%string) ∧
  (∀ table columns params,
     sql_text escape (InsertRow table columns params) =
       ("INSERT INTO " ++ txt table ++ " (" ++ join "," (txt <$> columns) ++ ") VALUES ("
         ++ join ", " ((λ _, "?") <$> columns) ++ ")")%string) ∧
  (∀ schema h,
     sql_text escape (DeleteHotBlock schema h) =
       ("DELETE FROM " ++ txt schema ++ ".hot_block WHERE height = ?")%string).
Proof.
  simpl. unfold sql_text.
  split; [done|]. split; [done|]. split; [done|]. split; [done|].
  split; [|split; [|done]].
  - intros table columns params. cbn [template].
    rewrite !text_app, text_joined, <- list_fmap_compose.
    rewrite (list_fmap_ext _ (λ c, ident_text escape c ++ " = ?")%string columns);
      [|by intros _ c _].
    cbn [foldr piece_text]. by rewrite !append_assoc.
  - intros table columns params. cbn [template].
    rewrite !text_app, !text_joined, <- !list_fmap_compose.
    rewrite (list_fmap_ext
               (foldr (λ p text, piece_text escape p ++ text)%string "" ∘ (λ c, [Id c]))
               (ident_text escape) columns);
      [|intros _ c _; apply append_nil_r].
    rewrite (list_fmap_ext
               (foldr (λ p text, piece_text escape p ++ text)%string "" ∘
                  (λ _ : Ident, [Mark Question]))
               (λ _, "?") columns); [|by intros _ c _].
    cbn [foldr piece_text]. by rewrite !append_assoc.
Qed.

(** A statement that goes through has only markers the backend binds. *)
Lemma em_query_binds em q db res :
  em_query em q db = Some res → forallb (binds em) (markers q) = true.
Proof. unfold em_query. by destruct (forallb _ _). Qed.

Lemma fetchEntities_inv em table ids db es db' :
  ChangeTracker.fetchEntities em table ids db = Some (es, db') →
  es = select_by_ids table ids (rows db) ∧ db' = db.
Proof.
  unfold ChangeTracker.fetchEntities, ChangeTracker.fetchEntities_sql, em_query.
  destruct (negb _); simpl; [done|]. by intros [= <- <-].
Qed.

(** What a bulk insert that goes through does: the tables stay, the change
    log grows by the JSON of the changes, numbered from the tracker's
    index. *)
Lemma writeChangeRows_inv em self cs db self' db' :
  ChangeTracker.writeChangeRows em self cs db = Some (self', db') →
  self' = ChangeTracker.mk (ChangeTracker.statusSchema self) (ChangeTracker.blockHeight self)
            (ChangeTracker.index self + Z.of_nat (length cs)) ∧
  db' = mkDb (rows db)
          (hot_change_log db ++
             stamp (ChangeTracker.blockHeight self) (ChangeTracker.index self)
               (JSON_stringify <$> cs))
          (hot_block db).
Proof.
  unfold ChangeTracker.writeChangeRows, ChangeTracker.writeChangeRows_sql, em_query.
  destruct (negb _); simpl; [done|].
  case_bool_decide; simpl; [|done].
  rewrite <- (length_fmap JSON_stringify cs), unnest_stamp, length_fmap.
  intros [= <- <-]. done.
Qed.

(** C1. [rollbackBlock] marks the parameter of its first statement with
    [?] (hot.ts:147), as it does in its UPDATE and INSERT statements and in
    the final DELETE, next to [$1] in the DELETE of a row (hot.ts:156). A
    backend that binds parameters to [$n] only, such as the PostgreSQL the
    tracker's statements are written for, turns the first statement down:
    whatever the store holds, the rollback throws before it has read a
    change row, and no row is restored. *)
Theorem rollbackBlock_rejected (em : EntityManager) (statusSchema : string)
    (blockHeight : Z) (db : Db) :
  binds em Question = false →
  Question ∈ markers (SelectChangeLog (Escaped statusSchema) blockHeight) ∧
  rollbackBlock statusSchema em blockHeight db = None.
Proof.
  intros Hq. split.
  - apply list_elem_of_here.
  - unfold rollbackBlock, em_query. simpl. by rewrite Hq.
Qed.

(** The statements of the tracker mark their parameters with [$n]: a
    backend that does not bind [$1] turns every call of the tracker down. *)
Lemma tracker_rejected (em : EntityManager) (self : ChangeTracker.t) (table : string)
    (entities : list Entity) (ids : list string) (db : Db) :
  binds em (Dollar "1") = false →
  ChangeTracker.trackInsert em self table entities db = None ∧
  ChangeTracker.trackUpsert em self table entities db = None ∧
  ChangeTracker.trackDelete em self table ids db = None.
Proof.
  intros Hd.
  unfold ChangeTracker.trackInsert, ChangeTracker.trackUpsert, ChangeTracker.trackDelete,
    ChangeTracker.writeChangeRows, ChangeTracker.fetchEntities, em_query.
  simpl. by rewrite Hd.
Qed.

(** C8. [trackUpsert] reads the existing rows by id and then writes one
    change row per entity, in order and numbered from the tracker's index:
    an update record with the stored row (every column next to the id) as
    pre-image when the table holds the entity's id, an insert record when it
    does not. The tables are left alone. *)
Theorem trackUpsert_records em self (table : string) (entities : list Entity) db self' db' :
  ChangeTracker.trackUpsert em self table entities db = Some (self', db') →
  rows db' = rows db ∧
  hot_change_log db' =
    hot_change_log db ++
      imap (λ n e,
              mkChangeRow (ChangeTracker.blockHeight self)
                (ChangeTracker.index self + Z.of_nat n)
                (JSON_stringify
                   match rows db !! (table, id e) with
                   | Some fields => UpdateRecord table (id e) fields
                   | None => InsertRecord table (id e)
                   end)) entities ∧
  ChangeTracker.index self' = ChangeTracker.index self + Z.of_nat (length entities).
Proof.
  unfold ChangeTracker.trackUpsert. intros Htrack.
  destruct (ChangeTracker.fetchEntities em table (id <$> entities) db)
    as [[found db1]|] eqn:Hfound; simpl in Htrack; [|done].
  apply fetchEntities_inv in Hfound as [-> ->].
  apply writeChangeRows_inv in Htrack as [-> ->]. simpl.
  split; [done|]. split; [|by rewrite length_fmap].
  f_equal. rewrite <- list_fmap_compose, stamp_imap. apply imap_ext.
  intros n e He. simpl. do 2 f_equal.
  rewrite touchedRows_lookup; [done|].
  apply list_elem_of_fmap_2. by eapply list_elem_of_lookup_2.
Qed.

(** C9 at [new ChangeTracker(em, 'hot state', 1)]: the statement of
    [writeChangeRows] holds the status schema as given, not as escaped by
    the driver, whereas [rollbackBlock] escapes the same schema name. *)
Theorem writeChangeRows_schema_raw (escape : string → string) :
  let self := ChangeTracker.new "hot state" 1 in
  let q := ChangeTracker.writeChangeRows_sql self [InsertRecord "item" "a"] in
  idents q = [Raw "hot state"] ∧
  sql_text escape q =
    ("INSERT INTO hot state.hot_change_log (block_height, index, change)"
       ++ " SELECT block_height, index, change::jsonb"
       ++ " FROM unnest($1::int[], $2::int[], $3::text[]) AS i(block_height, index, change)")%string ∧
  sql_text escape (SelectChangeLog (Escaped "hot state") 1) =
    ("SELECT block_height, index, change FROM " ++ escape "hot state"
       ++ ".hot_change_log WHERE block_height = ? ORDER BY index DESC")%string.
Proof. repeat split. Qed.

(** The same for every tracker: the schema is interpolated raw. *)
Lemma writeChangeRows_sql_idents (self : ChangeTracker.t) (changes : list ChangeRecord) :
  idents (ChangeTracker.writeChangeRows_sql self changes)
  = [Raw (ChangeTracker.statusSchema self)].
Proof. done. Qed.

Lemma rollbackBlock_rejected_witness :
  Question ∈ markers (SelectChangeLog (Escaped "squid") 7) ∧
  rollbackBlock "squid" Examples.postgres 7 Examples.db7_written = None.
Proof.
  apply (rollbackBlock_rejected Examples.postgres "squid" 7 Examples.db7_written).
  reflexivity.
Defined.

Lemma trackUpsert_records_witness :
  rows Examples.db7_saved = rows Examples.db0 ∧
  hot_change_log Examples.db7_saved =
    [mkChangeRow 7 0 (JSON_stringify (UpdateRecord "item" "a" Examples.rowA));
     mkChangeRow 7 1 (JSON_stringify (InsertRecord "item" "b"))] ∧
  ChangeTracker.index (ChangeTracker.mk "squid" 7 2) = 2.
Proof.
  apply (trackUpsert_records Examples.postgres Examples.tracker7 "item" Examples.saved
           Examples.db0 (ChangeTracker.mk "squid" 7 2) Examples.db7_saved).
  vm_compute; reflexivity.
Defined.

End HotFacts.

Module ArchiveFacts.
Import Js Data Evm Archive.

Lemma mergeDefaultFields_lookup (defaults : Selector) (selection : option Selector) k :
  mergeDefaultFields defaults selection !! k =
  merged (defaults !! k) (default ∅ selection !! k).
Proof.
  unfold mergeDefaultFields. generalize (default ∅ selection). intros sel.
  apply (map_fold_weak_ind (λ r m, r !! k = merged (defaults !! k) (m !! k))).
  - by rewrite lookup_empty.
  - intros i x m r Hi IH. destruct (decide (i = k)) as [->|Hne].
    + rewrite lookup_insert_eq. rewrite Hi in IH. simpl in IH.
      destruct x as [[|]|]; simpl; by rewrite ?lookup_insert_eq.
    + rewrite (lookup_insert_ne m) by done.
      destruct x as [[|]|]; by rewrite ?lookup_insert_ne.
Qed.

Section Selection.
Variable D : DefaultFields.t.

(** C3. Whatever the user selects, also when the selection switches them
    off, the masks built by [toFieldSelection] have [block.hash],
    [block.number], [transaction.index], [log.index] and
    [log.transactionIndex] set to [true]. *)
Theorem always_on_fields (fields : option Fields.t) :
  let fs := toFieldSelection D fields in
  (gw.FieldSelection.block fs ≫= (.!! "hash")) = Some (Some true) ∧
  (gw.FieldSelection.block fs ≫= (.!! "number")) = Some (Some true) ∧
  (gw.FieldSelection.transaction fs ≫= (.!! "index")) = Some (Some true) ∧
  (gw.FieldSelection.log fs ≫= (.!! "index")) = Some (Some true) ∧
  (gw.FieldSelection.log fs ≫= (.!! "transactionIndex")) = Some (Some true).
Proof.
  simpl. repeat split.
  - rewrite lookup_insert_ne by done. apply lookup_insert_eq.
  - apply lookup_insert_eq.
  - apply lookup_insert_eq.
  - rewrite lookup_insert_ne by done. apply lookup_insert_eq.
  - apply lookup_insert_eq.
Qed.

Lemma sent_lookup (m : Selector) k : sent (Some m) !! k = mjoin (m !! k).
Proof. unfold sent. simpl. rewrite lookup_omap. by destruct (m !! k). Qed.

Lemma merged_twice (d s : option (option bool)) :
  mjoin (merged d (merged d s)) = mjoin (merged d s) ↔ stable d s.
Proof.
  unfold stable.
  destruct s as [[[|]|]|], d as [[[|]|]|]; simpl; intuition congruence.
Qed.

Ltac not_exempt Hk :=
  intros <-; apply Hk;
  repeat first [apply list_elem_of_here | apply list_elem_of_further].

(** One mask: merged from the defaults [d] and a selection [s], with the
    keys [exempt] apart, next to the mask [m'] of the second application,
    which merges [m] with the defaults. *)
Lemma mask_twice (exempt : list string) (d s m m' : Selector) :
  (∀ k, k ∈ exempt → mjoin (m' !! k) = mjoin (m !! k)) →
  (∀ k, k ∉ exempt → m !! k = merged (d !! k) (s !! k)) →
  (∀ k, k ∉ exempt → m' !! k = merged (d !! k) (merged (d !! k) (s !! k))) →
  sent (Some m') = sent (Some m) ↔ stable_on exempt d s.
Proof.
  intros Hexempt Hm Hm'. rewrite map_eq_iff. split.
  - intros Heq k Hk. specialize (Heq k). rewrite !sent_lookup, Hm, Hm' in Heq by done.
    by apply merged_twice.
  - intros Hstable k. rewrite !sent_lookup.
    destruct (decide (k ∈ exempt)) as [Hk|Hk]; [by apply Hexempt|].
    rewrite Hm, Hm' by done. apply merged_twice. by apply Hstable.
Qed.

(** C4, as amended. The selector applied to its own output sends the same
    masks as the selector applied once exactly when, for every field
    other than the always-on ones, the user switched the field on, or the
    defaults hold no boolean for it, or the default is on and the user did
    not switch it off. With the default table this is: the selection
    switches off no default field, the always-on fields apart. *)
Theorem reselect_same_masks (fields : option Fields.t) :
  same_masks (reselect D fields) (toFieldSelection D fields) ↔ stable_selection D fields.
Proof.
  unfold same_masks, stable_selection, reselect.
  assert (∀ A B C A' B' C' : Prop, (A ↔ A') → (B ↔ B') → (C ↔ C') →
            (A ∧ B ∧ C ↔ A' ∧ B' ∧ C')) as Hconj by tauto.
  apply Hconj; simpl; apply mask_twice.
  - intros k Hk. apply elem_of_cons in Hk as [->|Hk].
    + by rewrite !(lookup_insert_ne _ "number"), !lookup_insert_eq by done.
    + apply list_elem_of_singleton in Hk as ->. by rewrite !lookup_insert_eq.
  - intros k Hk. rewrite !lookup_insert_ne by (not_exempt Hk).
    apply mergeDefaultFields_lookup.
  - intros k Hk. rewrite !(lookup_insert_ne _ _ k) by (not_exempt Hk).
    rewrite mergeDefaultFields_lookup. simpl.
    rewrite !lookup_insert_ne by (not_exempt Hk).
    by rewrite mergeDefaultFields_lookup.
  - intros k Hk. apply list_elem_of_singleton in Hk as ->. by rewrite !lookup_insert_eq.
  - intros k Hk. rewrite !lookup_insert_ne by (not_exempt Hk).
    apply mergeDefaultFields_lookup.
  - intros k Hk. rewrite !(lookup_insert_ne _ _ k) by (not_exempt Hk).
    rewrite mergeDefaultFields_lookup. simpl.
    rewrite !lookup_insert_ne by (not_exempt Hk).
    by rewrite mergeDefaultFields_lookup.
  - intros k Hk. apply elem_of_cons in Hk as [->|Hk].
    { by rewrite !(lookup_insert_ne _ "transactionIndex"), !lookup_insert_eq by done. }
    apply elem_of_cons in Hk as [->|Hk]; [by rewrite !lookup_insert_eq|].
    apply list_elem_of_singleton in Hk as ->.
    rewrite !lookup_insert_ne by done. rewrite !mergeDefaultFields_lookup. simpl.
    by rewrite !lookup_delete_eq.
  - intros k Hk. rewrite !lookup_insert_ne by (not_exempt Hk).
    rewrite mergeDefaultFields_lookup. simpl.
    by rewrite lookup_delete_ne by (not_exempt Hk).
  - intros k Hk. rewrite !(lookup_insert_ne _ _ k) by (not_exempt Hk).
    rewrite mergeDefaultFields_lookup. simpl.
    rewrite lookup_delete_ne by (not_exempt Hk).
    rewrite !lookup_insert_ne by (not_exempt Hk).
    rewrite mergeDefaultFields_lookup. simpl.
    by rewrite lookup_delete_ne by (not_exempt Hk).
Qed.

End Selection.

(** C4, as stated, fails: with the default table, a selection that
    switches [block.timestamp] off gets a mask without [timestamp], and the
    selector applied to that output switches [timestamp] on again. *)
Lemma reselect_restores_default :
  sent (gw.FieldSelection.block (toFieldSelection DEFAULT_FIELDS Examples.disable_timestamp))
    !! "timestamp" = None ∧
  sent (gw.FieldSelection.block (reselect DEFAULT_FIELDS Examples.disable_timestamp))
    !! "timestamp" = Some true ∧
  ¬ same_masks (reselect DEFAULT_FIELDS Examples.disable_timestamp)
      (toFieldSelection DEFAULT_FIELDS Examples.disable_timestamp) ∧
  reselect DEFAULT_FIELDS Examples.disable_timestamp ≠ toFieldSelection DEFAULT_FIELDS Examples.disable_timestamp.
Proof.
  assert (sent (gw.FieldSelection.block (toFieldSelection DEFAULT_FIELDS Examples.disable_timestamp))
            !! "timestamp" = None) as H1 by (by vm_compute).
  assert (sent (gw.FieldSelection.block (reselect DEFAULT_FIELDS Examples.disable_timestamp))
            !! "timestamp" = Some true) as H2 by (by vm_compute).
  split; [done|]. split; [done|].
  assert (¬ same_masks (reselect DEFAULT_FIELDS Examples.disable_timestamp)
            (toFieldSelection DEFAULT_FIELDS Examples.disable_timestamp)) as H3.
  { intros [Hb _]. rewrite Hb in H2. congruence. }
  split; [done|]. intros Heq. apply H3. rewrite Heq. repeat split; reflexivity.
Qed.

Section Client.
Variable D : DefaultFields.t.
Variable formatId : value → string → option Z → string.
Variable parseBigInt : string → option Z.
Variable parseNumber : string → value.
Variable blockItemOrder : Item → Item → Z.
Variable difference : value → value → Z.
Variable http_post : list gw.BatchRequest.t → gw.BatchRequest.t → option gw.BatchResponse.t.

(** One turn of the header loop: only the key [height] writes the height,
    only the key [id] the id, and no key the hash. *)
Lemma header_step_inv (header header' : EvmBlock.t) (key : string) (v : gw.wire) :
  header_step parseBigInt parseNumber header (key, v) = Ok header' →
  EvmBlock.hash header' = EvmBlock.hash header ∧
  EvmBlock.height header' =
    (if bool_decide (key = "height") then copy v else EvmBlock.height header) ∧
  EvmBlock.id header' = (if bool_decide (key = "id") then copy v else EvmBlock.id header).
Proof.
  unfold header_step. cbn [fst snd].
  destruct (decide (key = "height")) as [->|Hheight].
  { intros [= <-]. done. }
  destruct (decide (key = "id")) as [->|Hid].
  { intros [= <-]. done. }
  rewrite (bool_decide_false (key = "height")), (bool_decide_false (key = "id")) by done.
  assert (∀ w, EvmBlock.hash (assign key w header) = EvmBlock.hash header ∧
               EvmBlock.height (assign key w header) = EvmBlock.height header ∧
               EvmBlock.id (assign key w header) = EvmBlock.id header) as Hassign.
  { intros w. unfold assign.
    by rewrite (bool_decide_false (key = "id")), (bool_decide_false (key = "height")). }
  repeat case_bool_decide.
  - by intros [= <-].
  - intros [= <-]. apply Hassign.
  - destruct (toBigInt _ v); simpl; [|done]. intros [= <-]. apply Hassign.
  - intros [= <-]. apply Hassign.
Qed.

Lemma last_filter_cons {A} (P : A → Prop) `{!∀ x, Decision (P x)} (x : A) (l : list A) :
  list.last (filter P (x :: l)) =
    match list.last (filter P l) with
    | Some y => Some y
    | None => if decide (P x) then Some x else None
    end.
Proof.
  rewrite filter_cons. destruct (decide (P x)); [|by destruct (list.last _)].
  apply last_cons.
Qed.

Lemma header_loop_inv (props : list (string * gw.wire)) (header header' : EvmBlock.t) :
  try_fold (header_step parseBigInt parseNumber) header props = Ok header' →
  EvmBlock.hash header' = EvmBlock.hash header ∧
  EvmBlock.height header' =
    from_option copy (EvmBlock.height header)
      (snd <$> list.last (filter (λ kv : string * gw.wire, kv.1 = "height") props)) ∧
  EvmBlock.id header' =
    from_option copy (EvmBlock.id header)
      (snd <$> list.last (filter (λ kv : string * gw.wire, kv.1 = "id") props)).
Proof.
  revert header. induction props as [|[key v] props IH]; intros header; simpl.
  - by intros [= <-].
  - destruct (header_step _ _ header (key, v)) as [header1|e] eqn:Hstep; simpl; [|done].
    intros Hrest. apply header_step_inv in Hstep as (Hhash & Hheight & Hid).
    apply IH in Hrest as (-> & -> & ->). split; [done|].
    rewrite !last_filter_cons, Hheight, Hid. cbn [fst].
    split.
    + destruct (list.last (filter _ props)); [done|]. simpl.
      destruct (decide (key = "height")); simpl;
        [by rewrite bool_decide_true|by rewrite bool_decide_false].
    + destruct (list.last (filter (λ kv : string * gw.wire, kv.1 = "id") props)); [done|].
      simpl. destruct (decide (key = "id")); simpl;
        [by rewrite bool_decide_true|by rewrite bool_decide_false].
Qed.

(** A mapped header has the height the block on the wire stands for. *)
Lemma mapGatewayBlockHeader_height (src : gw.Block.t) (header : EvmBlock.t) :
  mapGatewayBlockHeader formatId parseBigInt parseNumber src = Ok header →
  EvmBlock.height header = wire_height src.
Proof.
  unfold mapGatewayBlockHeader. intros Hloop.
  by apply header_loop_inv in Hloop as (_ & -> & _).
Qed.

(** The two ways [getFinalizedBatch] returns a batch. *)
Lemma getFinalizedBatch_inv (request : BatchRequest.t) sent batch sent' :
  getFinalizedBatch D formatId parseBigInt parseNumber blockItemOrder difference http_post
    request sent = (Ok batch, sent') →
  let q := archiveQuery D request in
  let fs := toFieldSelection D (DataRequest.fields (BatchRequest.request request)) in
  ∃ res blocks,
    http_post sent q = Some res ∧
    mapBlocks formatId parseBigInt parseNumber blockItemOrder difference res = Ok blocks ∧
    BatchResponse.range batch =
      BatchRange.mk (Range.from (BatchRequest.range request))
        (gw.BatchResponse.nextBlock res - 1) ∧
    BatchResponse.chainHeight batch = gw.BatchResponse.archiveHeight res ∧
    ((last_height blocks = Some (Number (gw.BatchResponse.nextBlock res - 1)) ∧
      BatchResponse.blocks batch = blocks ∧ sent' = sent ++ [q]) ∨
     (last_height blocks ≠ Some (Number (gw.BatchResponse.nextBlock res - 1)) ∧
      ∃ res2 bd header,
        http_post (sent ++ [q])
          (fetchBlockHeader_query (gw.BatchResponse.nextBlock res - 1) fs) = Some res2 ∧
        gw.BatchResponse.data res2 = [[bd]] ∧
        mapGatewayBlockHeader formatId parseBigInt parseNumber (gw.BlockData.block bd) = Ok header ∧
        BatchResponse.blocks batch = blocks ++ [FullBlockData.mk header []] ∧
        sent' = sent ++ [q; fetchBlockHeader_query (gw.BatchResponse.nextBlock res - 1) fs])).
Proof.
  unfold getFinalizedBatch, bind, query, lift, ret. simpl.
  destruct (http_post sent _) as [res|] eqn:Hres; [|done].
  destruct (mapBlocks _ _ _ _ _ res) as [blocks|e] eqn:Hblocks; [|done].
  case_bool_decide as Hlast.
  - unfold fetchBlockHeader, bind, query, lift.
    destruct (http_post (sent ++ _) _) as [res2|] eqn:Hres2; [|done].
    destruct (gw.BatchResponse.data res2) as [|[|bd [|]] [|]] eqn:Hdata; try done.
    destruct (mapGatewayBlockHeader _ _ _ _) as [header|e] eqn:Hheader; [|done].
    intros [= <- <-]. exists res, blocks. repeat split; try done.
    right. split; [done|]. exists res2, bd, header. repeat split; try done.
    by rewrite <- (assoc_L (++)).
  - intros [= <- <-]. exists res, blocks. repeat split; try done.
    left. split; [|done].
    by destruct (decide (last_height blocks =
                           Some (Number (gw.BatchResponse.nextBlock res - 1)))).
Qed.


(** C6, as amended. When the mapped blocks of the answer do not end at
    [nextBlock - 1], exactly one further query follows: for that single
    height, with [includeAllBlocks: true], no log request, and one
    transaction request without filters that carries the whole field
    selection of the request; the batch ends with a stub that has the
    mapped header of the reply and no items. *)
Theorem backfill_query (request : BatchRequest.t) sent batch sent' res blocks :
  getFinalizedBatch D formatId parseBigInt parseNumber blockItemOrder difference http_post
    request sent = (Ok batch, sent') →
  http_post sent (archiveQuery D request) = Some res →
  mapBlocks formatId parseBigInt parseNumber blockItemOrder difference res = Ok blocks →
  last_height blocks ≠ Some (Number (gw.BatchResponse.nextBlock res - 1)) →
  let height := gw.BatchResponse.nextBlock res - 1 in
  let fs := toFieldSelection D (DataRequest.fields (BatchRequest.request request)) in
  sent' = sent ++
    [archiveQuery D request;
     gw.BatchRequest.mk height (Some height) true
       [gw.TransactionRequest.mk None None None fs] []] ∧
  ∃ reply bd header,
    http_post (sent ++ [archiveQuery D request]) (fetchBlockHeader_query height fs) = Some reply ∧
    gw.BatchResponse.data reply = [[bd]] ∧
    mapGatewayBlockHeader formatId parseBigInt parseNumber (gw.BlockData.block bd) = Ok header ∧
    BatchResponse.blocks batch = blocks ++ [FullBlockData.mk header []].
Proof.
  intros Hbatch Hres Hblocks Hlast.
  apply getFinalizedBatch_inv in Hbatch
    as (res' & blocks' & Hres' & Hblocks' & _ & _ & Hcases).
  simpl in *. rewrite Hres in Hres'. injection Hres' as <-.
  rewrite Hblocks in Hblocks'. injection Hblocks' as <-.
  destruct Hcases as [(Hl & _)|(_ & res2 & bd & header & Hres2 & Hdata & Hhdr & Hb & ->)];
    [done|].
  split; [done|]. by exists res2, bd, header.
Qed.

End Client.


Lemma backfill_query_witness :
  [archiveQuery DEFAULT_FIELDS Examples.request_40_50; Examples.header_query_50] =
    [] ++ [archiveQuery DEFAULT_FIELDS Examples.request_40_50;
           gw.BatchRequest.mk 50 (Some 50) true
             [gw.TransactionRequest.mk None None None
                (toFieldSelection DEFAULT_FIELDS None)] []] ∧
  ∃ reply bd header,
    Examples.archive ([] ++ [archiveQuery DEFAULT_FIELDS Examples.request_40_50])
      (fetchBlockHeader_query 50 (toFieldSelection DEFAULT_FIELDS None)) = Some reply ∧
    gw.BatchResponse.data reply = [[bd]] ∧
    mapGatewayBlockHeader Examples.formatId Examples.no_parse Examples.no_number
      (gw.BlockData.block bd) = Ok header ∧
    BatchResponse.blocks Examples.batch_40_50 = [] ++ [FullBlockData.mk header []].
Proof.
  apply (backfill_query DEFAULT_FIELDS Examples.formatId Examples.no_parse Examples.no_number
           Examples.any_order Examples.no_difference Examples.archive Examples.request_40_50 []
           Examples.batch_40_50
           [archiveQuery DEFAULT_FIELDS Examples.request_40_50; Examples.header_query_50]
           (gw.BatchResponse.mk [] 51 100) []).
  - vm_compute; reflexivity.
  - reflexivity.
  - reflexivity.
  - vm_compute. discriminate.
Defined.

Lemma stable_all_on (keys : list string) (s : Selector) (exempt : list string) :
  (∀ key, key ∉ exempt → s !! key ≠ Some (Some false)) →
  stable_on exempt (all_on keys) s.
Proof.
  intros Hs key Hkey. unfold stable.
  destruct (all_on keys !! key) as [d|] eqn:Hd; [|by right; left].
  right. right. split; [|by apply Hs].
  unfold all_on in Hd. apply elem_of_list_to_map_2 in Hd.
  apply list_elem_of_fmap in Hd as (k & [= -> ->] & _). done.
Qed.

Lemma reselect_same_masks_witness :
  same_masks (reselect DEFAULT_FIELDS Examples.with_gas_used)
    (toFieldSelection DEFAULT_FIELDS Examples.with_gas_used).
Proof.
  apply (reselect_same_masks DEFAULT_FIELDS Examples.with_gas_used).
  repeat split; apply stable_all_on; intros key _; simpl.
  - intros Hkey. apply lookup_singleton_Some in Hkey as [_ [=]].
  - by rewrite lookup_empty.
  - intros Hkey. apply lookup_singleton_Some in Hkey as [_ [=]].
Defined.


(** C6, as stated, fails: in scenario S2 the follow-up query carries the
    whole field selection, with transaction and log fields switched on. *)
Lemma backfill_selects_beyond_header :
  (Examples.getFinalizedBatch Examples.archive Examples.request_40_50 []) =
    (Ok Examples.batch_40_50,
     [archiveQuery DEFAULT_FIELDS Examples.request_40_50; Examples.header_query_50]) ∧
  ∃ tx,
    gw.BatchRequest.transactions Examples.header_query_50 = [tx] ∧
    gw.BatchRequest.includeAllBlocks Examples.header_query_50 = true ∧
    sent (gw.FieldSelection.transaction (gw.TransactionRequest.fieldSelection tx))
      !! "hash" = Some true ∧
    sent (gw.FieldSelection.log (gw.TransactionRequest.fieldSelection tx))
      !! "data" = Some true ∧
    ¬ header_only (gw.TransactionRequest.fieldSelection tx).
Proof.
  split; [vm_compute; reflexivity|].
  eexists. split; [reflexivity|]. split; [reflexivity|].
  assert (sent (gw.FieldSelection.transaction (toFieldSelection DEFAULT_FIELDS None))
            !! "hash" = Some true) as Hhash by (vm_compute; reflexivity).
  split; [exact Hhash|]. split; [vm_compute; reflexivity|].
  intros [Htx _]. apply (f_equal (λ m, m !! "hash")) in Htx. rewrite lookup_empty in Htx.
  assert (Some true = @None bool) as Hno; [|discriminate Hno].
  etrans; [symmetry; exact Hhash|exact Htx].
Qed.

End ArchiveFacts.

Module ProcessorFacts.
Import Js Data Processor.

Lemma assertNotRunning_throws {A} (k : Method A) (self : EvmBatchProcessor) :
  running self = true → (assertNotRunning ;; k) self = (inl locked, self).
Proof. intros Hrun. unfold bind, assertNotRunning. by rewrite Hrun. Qed.

Lemma run_sets_running {Database Handler} (database : Database) (handler : Handler)
    (self : EvmBatchProcessor) :
  running (run database handler self).2 = true.
Proof.
  unfold run, bind, assertNotRunning, update.
  destruct (running self) eqn:Hrun; simpl; done.
Qed.

(** C10. Once [run] has been called, every configuration method throws and
    leaves the object as it is (its requests, block range, fields, data
    source and the rest), and so does another call of [run]. *)
Theorem settings_locked_after_run {Database Handler} (database : Database)
    (handler : Handler) (self : EvmBatchProcessor) :
  let started := (run database handler self).2 in
  (∀ fs, setFields fs started = (inl locked, started)) ∧
  (∀ options, addLog options started = (inl locked, started)) ∧
  (∀ options, addTransaction options started = (inl locked, started)) ∧
  (∀ range, includeAllBlocks range started = (inl locked, started)) ∧
  (∀ range, setBlockRange range started = (inl locked, started)) ∧
  (∀ source, setDataSource source started = (inl locked, started)) ∧
  (∀ port, setPrometheusPort port started = (inl locked, started)) ∧
  (∀ database' handler',
     run (Database := Database) (Handler := Handler) database' handler' started
     = (inl locked, started)).
Proof.
  intros started.
  pose proof (run_sets_running database handler self) as Hrun. fold started in Hrun.
  repeat split; intros; by apply assertNotRunning_throws.
Qed.

Lemma concatRequestLists_default {T} (a b : option (list T)) :
  default [] (concatRequestLists a b) = default [] a ++ default [] b.
Proof. unfold concatRequestLists. simpl. by destruct (default [] a ++ default [] b). Qed.

Lemma concatRequestLists_None {T} (a b : option (list T)) :
  concatRequestLists a b = None ↔ default [] a ++ default [] b = [].
Proof. unfold concatRequestLists. simpl. by destruct (default [] a ++ default [] b). Qed.

(** C7. The request merged from two has the log requests of both, one
    after the other, and likewise the transaction requests; a list that
    comes out empty is left undefined; [includeAllBlocks] holds when it
    holds in one of the two. [getBatchRequests] merges first and then
    writes the fields of the processor, when set, into every request, which
    changes nothing else of the request. *)
Theorem merge_then_fields (a b : DataRequest.t) :
  default [] (DataRequest.logs (merge a b)) =
    default [] (DataRequest.logs a) ++ default [] (DataRequest.logs b) ∧
  default [] (DataRequest.transactions (merge a b)) =
    default [] (DataRequest.transactions a) ++ default [] (DataRequest.transactions b) ∧
  (DataRequest.logs (merge a b) = None ↔
     default [] (DataRequest.logs a) ++ default [] (DataRequest.logs b) = []) ∧
  (DataRequest.transactions (merge a b) = None ↔
     default [] (DataRequest.transactions a) ++ default [] (DataRequest.transactions b) = []) ∧
  Archive.truthy (DataRequest.includeAllBlocks (merge a b)) =
    (Archive.truthy (DataRequest.includeAllBlocks a)
     || Archive.truthy (DataRequest.includeAllBlocks b))%bool ∧
  (∀ mergeBatchRequests applyRangeBound self,
     getBatchRequests mergeBatchRequests applyRangeBound self =
       applyRangeBound
         (writeFields (fields self) (mergeBatchRequests (requests self) merge))
         (blockRange self)) ∧
  (∀ fs reqs req, req ∈ writeFields (Some fs) reqs →
     DataRequest.fields (BatchRequest.request req) = Some fs) ∧
  (∀ fs reqs,
     Forall2 (λ req req',
                BatchRequest.range req' = BatchRequest.range req ∧
                let r := BatchRequest.request req in
                let r' := BatchRequest.request req' in
                DataRequest.includeAllBlocks r' = DataRequest.includeAllBlocks r ∧
                DataRequest.logs r' = DataRequest.logs r ∧
                DataRequest.transactions r' = DataRequest.transactions r)
       reqs (writeFields fs reqs)).
Proof.
  repeat split.
  - apply concatRequestLists_default.
  - apply concatRequestLists_default.
  - apply concatRequestLists_None.
  - apply concatRequestLists_None.
  - apply concatRequestLists_None.
  - apply concatRequestLists_None.
  - simpl. by destruct (_ || _)%bool.
  - intros fs reqs req Hin. simpl in Hin.
    apply list_elem_of_fmap in Hin as [req0 [-> _]]. done.
  - intros fs reqs. destruct fs as [fs|]; simpl.
    + induction reqs as [|req reqs IH]; constructor; done.
    + induction reqs as [|req reqs IH]; constructor; done.
Qed.

(** What [toRequestList] returns is the given strings in lower case. *)
Lemma toRequestList_lowercase (val : option OneOrMany) :
  default [] (toRequestList val) = toLowerCase <$> items val.
Proof. destruct val as [[s|[|s l]]|]; done. Qed.

Lemma lower_ascii_idemp (c : ascii) : lower_ascii (lower_ascii c) = lower_ascii c.
Proof.
  destruct c as [[] [] [] [] [] [] [] []]; reflexivity.
Qed.

Lemma toLowerCase_idemp (s : string) : toLowerCase (toLowerCase s) = toLowerCase s.
Proof. induction s as [|c s IH]; simpl; [done|]. by rewrite lower_ascii_idemp, IH. Qed.

(** [addLog] and [addTransaction] before [run]: the request they store. *)
Lemma addLog_stores (options : LogOptions.t) (self : EvmBatchProcessor) :
  running self = false →
  addLog options self =
    (inr tt,
     mkProcessor
       (requests self ++
          [BatchRequest.mk (default (Range.mk 0 None) (LogOptions.range options))
             (DataRequest.mk None
                (Some [LogRequest.mk
                         (toRequestList (LogOptions.address options))
                         (match LogOptions.filter options with
                          | Some [] | None => None
                          | Some filter => Some filter
                          end)])
                None None)])
       (src self) (blockRange self) (fields self) (running self) (prometheusPort self)).
Proof.
  intros Hrun. unfold addLog, bind, assertNotRunning, add, update. rewrite Hrun. simpl.
  rewrite Hrun. by destruct (LogOptions.filter options) as [[|]|].
Qed.

Lemma addTransaction_stores (options : TransactionOptions.t) (self : EvmBatchProcessor) :
  running self = false →
  addTransaction options self =
    (inr tt,
     mkProcessor
       (requests self ++
          [BatchRequest.mk (default (Range.mk 0 None) (TransactionOptions.range options))
             (DataRequest.mk None None
                (Some [TransactionRequest.mk
                         (toRequestList (TransactionOptions.from options))
                         (toRequestList (TransactionOptions.to options))
                         (toRequestList (TransactionOptions.sighash options))])
                None)])
       (src self) (blockRange self) (fields self) (running self) (prometheusPort self)).
Proof.
  intros Hrun. unfold addTransaction, bind, assertNotRunning, add, update. rewrite Hrun. simpl.
  by rewrite Hrun.
Qed.

(** Scenario S5: [addTransaction({sighash: '0xA9059CBB'})]. *)
Example sighash_lowercase :
  (addTransaction (TransactionOptions.mk None None (Some (One "0xA9059CBB")) None) new).2
  = mkProcessor
      [BatchRequest.mk (Range.mk 0 None)
         (DataRequest.mk None None
            (Some [TransactionRequest.mk None None (Some ["0xa9059cbb"])]) None)]
      None None None false None.
Proof. reflexivity. Qed.

(** C5 at [addLog({address: '0xA0B8', filter: [['0xDDF252AD']]})]: the
    address is stored in lower case, the topic is stored, and sent to the
    archive, as it was given. *)
Theorem addLog_topic_case_kept :
  let options :=
    LogOptions.mk (Some (One "0xA0B8")) (Some [["0xDDF252AD"]]) None in
  let self := (addLog options new).2 in
  let stored :=
    BatchRequest.mk (Range.mk 0 None)
      (DataRequest.mk None
         (Some [LogRequest.mk (Some ["0xa0b8"]) (Some [["0xDDF252AD"]])]) None None) in
  requests self = [stored] ∧
  gw.LogRequest.address <$>
    gw.BatchRequest.logs (Archive.archiveQuery Archive.DEFAULT_FIELDS stored)
    = [Some ["0xa0b8"]] ∧
  gw.LogRequest.topics <$>
    gw.BatchRequest.logs (Archive.archiveQuery Archive.DEFAULT_FIELDS stored)
    = [[["0xDDF252AD"]]] ∧
  toLowerCase "0xDDF252AD" = "0xddf252ad".
Proof. repeat split. Qed.

End ProcessorFacts.

(** * Further properties *)

Module JsFacts.
Import Js.

Lemma sort_insert_perm {A} (cmp : A → A → Z) (x : A) (l : list A) :
  sort_insert cmp x l ≡ₚ x :: l.
Proof.
  induction l as [|y l IH]; simpl; [done|].
  destruct (cmp x y <=? 0); [done|]. rewrite IH. apply Permutation_swap.
Qed.

Lemma sort_perm {A} (cmp : A → A → Z) (l : list A) : sort cmp l ≡ₚ l.
Proof.
  induction l as [|x l IH]; [done|].
  change (sort cmp (x :: l)) with (sort_insert cmp x (sort cmp l)).
  by rewrite sort_insert_perm, IH.
Qed.

Lemma sort_insert_ascending {A} (key : A → Z) (x : A) (l : list A) :
  ascending key l → ascending key (sort_insert (λ a b, key a - key b) x l).
Proof.
  induction l as [|y l IH]; intros Hl; simpl.
  - by split.
  - destruct Hl as [Hy Hl].
    destruct (Z.leb_spec (key x - key y) 0) as [Hle|Hgt].
    + split; [|by split]. constructor; [lia|].
      eapply list.Forall_impl; [exact Hy|]. simpl. intros z Hz. lia.
    + split; [|by apply IH].
      rewrite sort_insert_perm. constructor; [lia|done].
Qed.

Lemma sort_ascending {A} (key : A → Z) (l : list A) :
  ascending key (sort (λ a b, key a - key b) l).
Proof.
  induction l as [|x l IH]; [done|].
  change (sort (λ a b, key a - key b) (x :: l))
    with (sort_insert (λ a b, key a - key b) x (sort (λ a b, key a - key b) l)).
  by apply sort_insert_ascending.
Qed.

Lemma sort_insert_ext {A} (cmp cmp' : A → A → Z) (x : A) (l : list A) :
  (∀ y, y ∈ l → cmp x y = cmp' x y) → sort_insert cmp x l = sort_insert cmp' x l.
Proof.
  induction l as [|y l IH]; [done|]. intros Hext. simpl.
  rewrite (Hext y) by apply list_elem_of_here.
  destruct (cmp' x y <=? 0); [done|]. f_equal. apply IH.
  intros z Hz. apply Hext. by apply list_elem_of_further.
Qed.

(** The sort reads the comparator on the elements of the list only. *)
Lemma sort_ext {A} (cmp cmp' : A → A → Z) (l : list A) :
  (∀ a b, a ∈ l → b ∈ l → cmp a b = cmp' a b) → sort cmp l = sort cmp' l.
Proof.
  induction l as [|x l IH]; [done|]. intros Hext.
  change (sort cmp (x :: l)) with (sort_insert cmp x (sort cmp l)).
  change (sort cmp' (x :: l)) with (sort_insert cmp' x (sort cmp' l)).
  rewrite <- IH.
  - apply sort_insert_ext. intros y Hy. rewrite sort_perm in Hy.
    apply Hext; [apply list_elem_of_here|by apply list_elem_of_further].
  - intros a b Ha Hb. apply Hext; by apply list_elem_of_further.
Qed.

End JsFacts.

Module HotMore.
Import Js Hot HotFacts.

(** [trackInsert] does not read the tables: whether or not the ids exist,
    it leaves the tables alone and writes one insert record per entity, in
    the order given, numbered from the tracker's index, which moves on by
    the number of entities. *)
Theorem trackInsert_records em self (table : string) (entities : list Entity) db self' db' :
  ChangeTracker.trackInsert em self table entities db = Some (self', db') →
  rows db' = rows db ∧
  hot_block db' = hot_block db ∧
  hot_change_log db' =
    hot_change_log db ++
      imap (λ n e,
              mkChangeRow (ChangeTracker.blockHeight self)
                (ChangeTracker.index self + Z.of_nat n)
                (JSON_stringify (InsertRecord table (id e)))) entities ∧
  ChangeTracker.index self' = ChangeTracker.index self + Z.of_nat (length entities).
Proof.
  intros Htrack. apply writeChangeRows_inv in Htrack as [-> ->].
  simpl. split; [done|]. split; [done|]. split.
  - f_equal. rewrite <- list_fmap_compose. apply stamp_imap.
  - by rewrite length_fmap.
Qed.

Lemma elem_of_select_by_ids (t : string) (ids : list string) (rs : Rows) (e : Entity) :
  e ∈ select_by_ids t ids rs ↔ id e ∈ ids ∧ rs !! (t, id e) = Some (props e).
Proof.
  unfold select_by_ids. rewrite list_elem_of_fmap. split.
  - intros [[[t' i] f] [-> Hin]]. apply list_elem_of_filter in Hin as [[Ht Hi] Hin].
    simpl in *. subst t'. split; [done|]. by apply elem_of_map_to_list in Hin.
  - intros [Hi Hrow]. exists ((t, id e), props e). split; [by destruct e|].
    apply list_elem_of_filter. split; [done|]. by apply elem_of_map_to_list.
Qed.

(** [trackDelete] leaves the tables alone and writes delete records only:
    one for every row of the table whose id is among [ids], with the whole
    row as pre-image. An id without a row gives no record, and an id
    given twice gives one. *)
Theorem trackDelete_records em self (table : string) (ids : list string) db self' db' :
  ChangeTracker.trackDelete em self table ids db = Some (self', db') →
  rows db' = rows db ∧
  ∃ recs,
    hot_change_log db' =
      hot_change_log db ++
        stamp (ChangeTracker.blockHeight self) (ChangeTracker.index self)
          (JSON_stringify <$> recs) ∧
    NoDup recs ∧
    (∀ c, c ∈ recs ↔
          ∃ i f, c = DeleteRecord table i f ∧ i ∈ ids ∧ rows db !! (table, i) = Some f) ∧
    ChangeTracker.index self' = ChangeTracker.index self + Z.of_nat (length recs).
Proof.
  unfold ChangeTracker.trackDelete. intros Htrack.
  destruct (ChangeTracker.fetchEntities em table ids db)
    as [[found db1]|] eqn:Hfound; simpl in Htrack; [|done].
  apply fetchEntities_inv in Hfound as [-> ->].
  apply writeChangeRows_inv in Htrack as [-> ->].
  simpl. split; [done|]. eexists. split; [done|]. split; [|split; [|done]].
  - apply (NoDup_fmap_1 record_key). rewrite <- list_fmap_compose.
    apply (select_keys_NoDup table ids (rows db)).
  - intros c. rewrite list_elem_of_fmap. split.
    + intros [e [-> He]]. apply elem_of_select_by_ids in He as [Hi Hrow].
      by exists (id e), (props e).
    + intros (i & f & -> & Hi & Hrow). exists (mkEntity i f). split; [done|].
      by apply elem_of_select_by_ids.
Qed.




Lemma trackInsert_records_witness :
  rows Examples.db0_inserted = rows Examples.db0 ∧
  hot_block Examples.db0_inserted = hot_block Examples.db0 ∧
  hot_change_log Examples.db0_inserted =
    hot_change_log Examples.db0 ++
      imap (λ n e, mkChangeRow 7 (0 + Z.of_nat n) (JSON_stringify (InsertRecord "item" (id e))))
        Examples.saved ∧
  ChangeTracker.index (ChangeTracker.mk "squid" 7 2) = 0 + Z.of_nat (length Examples.saved).
Proof.
  apply (trackInsert_records Examples.postgres Examples.tracker7 "item" Examples.saved
           Examples.db0 (ChangeTracker.mk "squid" 7 2) Examples.db0_inserted).
  vm_compute; reflexivity.
Defined.

Lemma trackDelete_records_witness :
  rows Examples.db0_deleted = rows Examples.db0 ∧
  ∃ recs,
    hot_change_log Examples.db0_deleted =
      hot_change_log Examples.db0 ++ stamp 7 0 (JSON_stringify <$> recs) ∧
    NoDup recs ∧
    (∀ c, c ∈ recs ↔
          ∃ i f, c = DeleteRecord "item" i f ∧ i ∈ ["a"; "zz"; "a"] ∧
                 rows Examples.db0 !! ("item", i) = Some f) ∧
    ChangeTracker.index (ChangeTracker.mk "squid" 7 1) = 0 + Z.of_nat (length recs).
Proof.
  apply (trackDelete_records Examples.postgres Examples.tracker7 "item" ["a"; "zz"; "a"]
           Examples.db0 (ChangeTracker.mk "squid" 7 1) Examples.db0_deleted).
  vm_compute; reflexivity.
Defined.


End HotMore.

Module ArchiveMore.
Import Js Data Evm Archive ArchiveFacts.

(** [mergeDefaultFields], key by key: a key the selection sets to [true]
    is [true] in the result, a key it sets to [false] is there but
    [undefined], and any other key is as in the defaults. Without a
    selection the result is the defaults. *)
Theorem mergeDefaultFields_by_key (defaults : Selector) (selection : option Selector) :
  (∀ key,
     mergeDefaultFields defaults selection !! key =
       match default ∅ selection !! key with
       | Some (Some true) => Some (Some true)
       | Some (Some false) => Some None
       | Some None | None => defaults !! key
       end) ∧
  mergeDefaultFields defaults None = defaults.
Proof.
  split.
  - intros key. rewrite mergeDefaultFields_lookup. unfold merged.
    by destruct (default ∅ selection !! key) as [[[|]|]|].
  - apply map_eq. intros key. rewrite mergeDefaultFields_lookup. simpl.
    by rewrite lookup_empty.
Qed.

Section Selection.
Variable D : DefaultFields.t.

(** What of a selection reaches the archive. For a field that is not one
    of the always-on fields, the mask sent has it iff the user switched it
    on, or it is a default and the user did not switch it off. The flag
    [transaction] of the log selection is not passed on as a log field. *)
Theorem selection_sent (fields : option Fields.t) (key : string) :
  let fs := toFieldSelection D fields in
  (key ≠ "hash" → key ≠ "number" →
   sent (gw.FieldSelection.block fs) !! key =
     mjoin (merged (DefaultFields.block D !! key)
              (default ∅ (fields ≫= Fields.block) !! key))) ∧
  (key ≠ "index" →
   sent (gw.FieldSelection.transaction fs) !! key =
     mjoin (merged (DefaultFields.transaction D !! key)
              (default ∅ (fields ≫= Fields.transaction) !! key))) ∧
  (key ≠ "index" → key ≠ "transactionIndex" → key ≠ "transaction" →
   sent (gw.FieldSelection.log fs) !! key =
     mjoin (merged (DefaultFields.log D !! key)
              (default ∅ (fields ≫= Fields.log) !! key))) ∧
  sent (gw.FieldSelection.log fs) !! "transaction" =
    mjoin (DefaultFields.log D !! "transaction").
Proof.
  simpl. repeat split.
  - intros Hh Hn. rewrite sent_lookup, !lookup_insert_ne by done.
    by rewrite mergeDefaultFields_lookup.
  - intros Hi. rewrite sent_lookup, !lookup_insert_ne by done.
    by rewrite mergeDefaultFields_lookup.
  - intros Hi Hti Ht. rewrite sent_lookup, !lookup_insert_ne by done.
    rewrite mergeDefaultFields_lookup. simpl. by rewrite lookup_delete_ne.
  - rewrite sent_lookup, !lookup_insert_ne by done.
    rewrite mergeDefaultFields_lookup. simpl. by rewrite lookup_delete_eq.
Qed.

(** The sub-requests of the query of [getFinalizedBatch]: one per
    transaction request and one per log request of the user, in order and
    with the filters as stored. A transaction sub-request never carries a
    log mask; a log sub-request carries a transaction mask iff the log
    selection has [transaction] switched on. *)
Theorem archiveQuery_subrequests (request : BatchRequest.t) :
  let q := archiveQuery D request in
  let req := BatchRequest.request request in
  let fs := toFieldSelection D (DataRequest.fields req) in
  (λ tx, (gw.TransactionRequest.from tx, gw.TransactionRequest.to tx,
          gw.TransactionRequest.sighash tx)) <$> gw.BatchRequest.transactions q =
    (λ tx, (TransactionRequest.from tx, TransactionRequest.to tx,
            TransactionRequest.sighash tx)) <$> default [] (DataRequest.transactions req) ∧
  (λ lg, (gw.LogRequest.address lg, gw.LogRequest.topics lg)) <$> gw.BatchRequest.logs q =
    (λ lg, (LogRequest.address lg, default [] (LogRequest.filter lg)))
      <$> default [] (DataRequest.logs req) ∧
  Forall (λ tx,
            gw.FieldSelection.log (gw.TransactionRequest.fieldSelection tx) = None ∧
            gw.FieldSelection.transaction (gw.TransactionRequest.fieldSelection tx) =
              gw.FieldSelection.transaction fs ∧
            gw.FieldSelection.block (gw.TransactionRequest.fieldSelection tx) =
              gw.FieldSelection.block fs)
         (gw.BatchRequest.transactions q) ∧
  Forall (λ lg,
            gw.FieldSelection.log (gw.LogRequest.fieldSelection lg) =
              gw.FieldSelection.log fs ∧
            gw.FieldSelection.block (gw.LogRequest.fieldSelection lg) =
              gw.FieldSelection.block fs ∧
            (is_Some (gw.FieldSelection.transaction (gw.LogRequest.fieldSelection lg)) ↔
             ∃ selection, DataRequest.fields req ≫= Fields.log = Some selection ∧
                          selection !! "transaction" = Some (Some true)))
         (gw.BatchRequest.logs q).
Proof.
  simpl. repeat split.
  - by rewrite <- list_fmap_compose.
  - by rewrite <- list_fmap_compose.
  - apply Forall_fmap, list.Forall_forall. intros tx _. done.
  - apply Forall_fmap, list.Forall_forall. intros lg _. simpl.
    unfold wantsLogTransaction, toFieldSelection.
    destruct (DataRequest.fields (BatchRequest.request request) ≫= Fields.log)
      as [selection|] eqn:Hsel; simpl.
    + destruct (selection !! "transaction") as [[[|]|]|] eqn:Ht; simpl;
        (split; [done|]); (split; [done|]); split.
      * intros _. by exists selection.
      * by eexists.
      * by intros [? ?].
      * intros (s & [= <-] & Hs). congruence.
      * by intros [? ?].
      * intros (s & [= <-] & Hs). congruence.
      * by intros [? ?].
      * intros (s & [= <-] & Hs). congruence.
    + split; [done|]. split; [done|]. split; [by intros [? ?]|]. by intros (s & Hs & _).
Qed.

End Selection.
Lemma try_map_Ok {A B} (f : A → Result B) (l : list A) (ys : list B) :
  try_map f l = Ok ys → Forall2 (λ x y, f x = Ok y) l ys.
Proof.
  revert ys. induction l as [|x l IH]; intros ys; simpl.
  - intros [= <-]. constructor.
  - destruct (f x) as [y|e] eqn:Hx; simpl; [|done].
    destruct (try_map f l) as [ys'|e]; simpl; [|done].
    intros [= <-]. constructor; [done|]. by apply IH.
Qed.

Lemma try_map_Throw {A B} (f : A → Result B) (l : list A) (e : Error) :
  try_map f l = Throw e → ∃ x, x ∈ l ∧ f x = Throw e.
Proof.
  induction l as [|x l IH]; simpl; [done|].
  destruct (f x) as [y|e'] eqn:Hx; simpl.
  - destruct (try_map f l) as [ys'|e']; simpl; [done|].
    intros [= <-]. destruct IH as (x' & Hin & Hx'); [done|].
    exists x'. split; [by right|done].
  - intros [= <-]. exists x. split; [by left|done].
Qed.

Lemma try_map_all_Ok {A B} (f : A → Result B) (l : list A) :
  Forall (λ x, ∃ y, f x = Ok y) l → ∃ ys, try_map f l = Ok ys.
Proof.
  induction 1 as [|x l [y Hy] _ [ys IH]]; simpl; [by eexists|].
  rewrite Hy, IH. simpl. by eexists.
Qed.

Lemma omap_id_Some {A} (x : A) (l : list (option A)) :
  omap (λ p, p) (Some x :: l) = x :: omap (λ p, p) l.
Proof. reflexivity. Qed.

Lemma omap_id_None {A} (l : list (option A)) :
  omap (λ p, p) (None :: l) = omap (λ p : option A, p) l.
Proof. reflexivity. Qed.

Section Client.
Variable D : DefaultFields.t.
Variable formatId : value → string → option Z → string.
Variable parseBigInt : string → option Z.
Variable parseNumber : string → value.
Variable blockItemOrder : Item → Item → Z.
Variable difference : value → value → Z.
Variable http_post : list gw.BatchRequest.t → gw.BatchRequest.t → option gw.BatchResponse.t.

(** [getFinalizedBatch] sends its query first and at most one more, the
    header query for [nextBlock - 1]. When the archive turns the first
    query down, or a block of the answer cannot be mapped, the call throws
    that error and nothing more is sent. *)
Theorem getFinalizedBatch_queries (request : BatchRequest.t)
    (sent : list gw.BatchRequest.t) :
  let call :=
    getFinalizedBatch D formatId parseBigInt parseNumber blockItemOrder difference http_post
      request sent in
  let q := archiveQuery D request in
  let fs := toFieldSelection D (DataRequest.fields (BatchRequest.request request)) in
  (call.2 = sent ++ [q] ∨
   ∃ res, http_post sent q = Some res ∧
          call.2 = sent ++ [q; fetchBlockHeader_query (gw.BatchResponse.nextBlock res - 1) fs]) ∧
  (http_post sent q = None → call = (Throw HttpError, sent ++ [q])) ∧
  (∀ res e,
     http_post sent q = Some res →
     mapBlocks formatId parseBigInt parseNumber blockItemOrder difference res = Throw e →
     call = (Throw e, sent ++ [q])).
Proof.
  simpl. unfold getFinalizedBatch, bind, query, lift, ret. simpl.
  destruct (http_post sent _) as [res|] eqn:Hres.
  - destruct (mapBlocks _ _ _ _ _ res) as [blocks|e] eqn:Hblocks.
    + split; [|split; [done|]].
      * case_bool_decide; [|by left].
        right. exists res. split; [done|].
        unfold fetchBlockHeader, bind, query, lift.
        destruct (http_post (sent ++ _) _) as [reply|]; simpl.
        -- rewrite <- (assoc_L (++)). simpl.
           destruct (gw.BatchResponse.data reply) as [|[|bd [|]] [|]]; simpl; try done.
           by destruct (mapGatewayBlockHeader _ _ _ _).
        -- by rewrite <- (assoc_L (++)).
      * intros res' e' Hq. apply (inj Some) in Hq. subst res'.
        rewrite Hblocks. discriminate.
    + split; [by left|]. split; [done|].
      intros res' e' Hq. apply (inj Some) in Hq. subst res'.
      rewrite Hblocks. by intros [= <-].
  - split; [by left|]. split; [done|]. done.
Qed.

(** When the header has to be fetched, a reply that is not exactly one
    group of exactly one block ends the call with an assertion error, and
    a header query the archive turns down ends it with that error: no
    batch is returned. *)
Theorem header_reply_checked (request : BatchRequest.t) (sent : list gw.BatchRequest.t)
    res blocks :
  let q := archiveQuery D request in
  let fs := toFieldSelection D (DataRequest.fields (BatchRequest.request request)) in
  let header_query := fetchBlockHeader_query (gw.BatchResponse.nextBlock res - 1) fs in
  http_post sent q = Some res →
  mapBlocks formatId parseBigInt parseNumber blockItemOrder difference res = Ok blocks →
  last_height blocks ≠ Some (Number (gw.BatchResponse.nextBlock res - 1)) →
  (getFinalizedBatch D formatId parseBigInt parseNumber blockItemOrder difference http_post
     request sent).1 =
    match http_post (sent ++ [q]) header_query with
    | None => Throw HttpError
    | Some reply =>
        match gw.BatchResponse.data reply with
        | [[bd]] =>
            match mapGatewayBlockHeader formatId parseBigInt parseNumber
                    (gw.BlockData.block bd) with
            | Ok header =>
                Ok (BatchResponse.mk
                      (BatchRange.mk (Range.from (BatchRequest.range request))
                         (gw.BatchResponse.nextBlock res - 1))
                      (blocks ++ [FullBlockData.mk header []])
                      (gw.BatchResponse.archiveHeight res))
            | Throw e => Throw e
            end
        | _ => Throw AssertionError
        end
    end.
Proof.
  simpl. intros Hres Hblocks Hlast.
  unfold getFinalizedBatch, bind, query, lift, ret. simpl.
  rewrite Hres, Hblocks. rewrite bool_decide_true by done.
  unfold fetchBlockHeader, bind, query, lift.
  destruct (http_post (sent ++ _) _) as [reply|]; simpl; [|done].
  destruct (gw.BatchResponse.data reply) as [|[|bd [|]] [|]]; simpl; try done.
  by destruct (mapGatewayBlockHeader _ _ _ _).
Qed.

Lemma ascending_fmap {A} (key : A → Z) (l : list A) :
  ascending key l → ascending (λ n, n) (key <$> l).
Proof.
  induction l as [|x l IH]; [done|]. intros [Hx Hl]. split; [|by apply IH].
  by apply Forall_fmap.
Qed.

(** The blocks the archive sends, in whatever grouping and order, come
    out of the mapping each once: the heights of the mapped blocks are the
    heights the blocks sent stand for, rearranged. When these heights are
    all integers, as they are when no block sent has a key [height] of its
    own, the mapped blocks are in ascending order of height. *)
Theorem mapped_blocks_sorted (res : gw.BatchResponse.t) (blocks : list FullBlockData.t) :
  mapBlocks formatId parseBigInt parseNumber blockItemOrder difference res = Ok blocks →
  height_of <$> blocks ≡ₚ
    (λ bd, wire_height (gw.BlockData.block bd)) <$> concat (gw.BatchResponse.data res) ∧
  ∀ heights, integers (height_of <$> blocks) = Some heights → ascending (λ n, n) heights.
Proof.
  unfold mapBlocks.
  destruct (try_map _ _) as [mapped|e] eqn:Hmapped; simpl; [|done].
  intros [= <-]. split.
  - rewrite JsFacts.sort_perm.
    apply try_map_Ok in Hmapped.
    induction Hmapped as [|bd b l l' Hb _ IH]; [done|].
    rewrite !fmap_cons, IH.
    unfold tryMapGatewayBlock, mapGatewayBlock in Hb.
    destruct (mapGatewayBlockHeader _ _ _ _) as [header|] eqn:Hheader; simpl in Hb; [|done].
    destruct (try_map _ _) as [txs|]; simpl in Hb; [|done].
    injection Hb as <-. unfold height_of. simpl.
    apply mapGatewayBlockHeader_height in Hheader. by rewrite Hheader.
  - intros heights Hints. unfold integers in Hints. apply mapM_Some in Hints.
    apply Forall2_fmap_l in Hints.
    pose (key := λ b, match height_of b with Number n => n | _ => 0 end).
    assert (Forall (λ b, height_of b = Number (key b)) (sort (by_height difference) mapped))
      as Hnumbers.
    { clear -Hints. induction Hints as [|b n l k Hb _ IH]; constructor; [|done].
      unfold key. simpl in Hb. by destruct (height_of b). }
    assert (heights = key <$> sort (by_height difference) mapped) as ->.
    { clear -Hints. induction Hints as [|b n l k Hb _ IH]; [done|].
      rewrite fmap_cons. f_equal; [|done]. unfold key. simpl in Hb.
      destruct (height_of b); try done. by injection Hb as <-. }
    apply ascending_fmap.
    rewrite (JsFacts.sort_ext _ (λ a b, key a - key b)).
    + apply JsFacts.sort_ascending.
    + rewrite list.Forall_forall in Hnumbers.
      intros a b Ha Hb. unfold by_height, minus.
      rewrite <- (JsFacts.sort_perm (by_height difference)) in Ha, Hb.
      apply Hnumbers in Ha, Hb. unfold height_of in Ha, Hb. by rewrite Ha, Hb.
Qed.








(** A mapped transaction carries the index it was sent with and, of the
    keys it was sent, only those the mapping names, in the order sent:
    other keys are dropped, where a block header keeps them. *)
Theorem transaction_mapping (blockHeight : value) (blockHash : string)
    (src : gw.Transaction.t) (tx : EvmTransaction.t) :
  mapGatewayTransaction formatId parseBigInt blockHeight blockHash src = Ok tx →
  EvmTransaction.index tx = gw.Transaction.index src ∧
  EvmTransaction.id tx = formatId blockHeight blockHash (Some (gw.Transaction.index src)) ∧
  (EvmTransaction.props tx).*1 =
    filter (λ key, key ∈ transaction_copied ++ transaction_bigints) (gw.Transaction.props src).*1.
Proof.
  unfold mapGatewayTransaction.
  destruct (try_map _ _) as [props|e] eqn:Hprops; cbn [try_bind]; [|done].
  intros [= <-]. split; [done|]. split; [done|].
  cbn [EvmTransaction.props]. apply try_map_Ok in Hprops.
  induction Hprops as [|[key v] p l l' Hp _ IH]; [done|].
  rewrite fmap_cons, filter_cons. unfold transaction_prop in Hp.
  change (((key, v).1)) with key in *. change (((key, v).2)) with v in *.
  case_bool_decide as Hcopied.
  - injection Hp as <-. rewrite omap_id_Some, fmap_cons.
    rewrite decide_True by (apply elem_of_app; by left). f_equal. exact IH.
  - case_bool_decide as Hbig.
    + destruct (toBigInt _ _); simpl in Hp; [|done]. injection Hp as <-.
      rewrite omap_id_Some, fmap_cons.
      rewrite decide_True by (apply elem_of_app; by right). f_equal. exact IH.
    + injection Hp as <-. rewrite omap_id_None.
      rewrite decide_False by (by intros [?|?]%elem_of_app). exact IH.
Qed.

Lemma txIndex_lookup (txs : list EvmTransaction.t) (m : gmap Z EvmTransaction.t) (i : Z) :
  foldl (λ m tx, <[EvmTransaction.index tx := tx]> m) m txs !! i =
    match list.last (filter (λ tx, EvmTransaction.index tx = i) txs) with
    | Some tx => Some tx
    | None => m !! i
    end.
Proof.
  revert m. induction txs as [|tx txs IH]; intros m; [done|].
  simpl. rewrite IH, filter_cons.
  destruct (decide (EvmTransaction.index tx = i)) as [<-|Hne].
  - destruct (filter _ txs) as [|tx' l] eqn:Hf; simpl.
    + by rewrite lookup_insert_eq.
    + destruct (list.last (tx' :: l)) eqn:Hl; [done|]. by apply last_None in Hl.
  - destruct (list.last _); [done|]. by rewrite lookup_insert_ne.
Qed.

(** A mapped block has one item for each transaction and each log it was
    sent. A log item carries a transaction exactly when a transaction of
    the block has the index the log names, and then it is the last such
    transaction of the block, itself one of the block's items. *)
Theorem log_items_joined (src : gw.BlockData.t) (block : FullBlockData.t) :
  mapGatewayBlock formatId parseBigInt parseNumber blockItemOrder src = Ok block →
  length (FullBlockData.items block) =
    (length (gw.BlockData.transactions src) + length (gw.BlockData.logs src))%nat ∧
  ∃ txs,
    Forall2 (λ gtx tx, EvmTransaction.index tx = gw.Transaction.index gtx)
      (gw.BlockData.transactions src) txs ∧
    (∀ tx, TransactionItem tx ∈ FullBlockData.items block ↔ tx ∈ txs) ∧
    ∀ log joined, LogItem log joined ∈ FullBlockData.items block →
      joined =
        i ← EvmLog.transactionIndex log;
        list.last (filter (λ tx, EvmTransaction.index tx = i) txs).
Proof.
  unfold mapGatewayBlock.
  destruct (mapGatewayBlockHeader _ _ _ _) as [header|]; simpl; [|done].
  destruct (try_map _ _) as [txs|] eqn:Htxs; simpl; [|done].
  intros [= <-]. simpl. apply try_map_Ok in Htxs.
  split.
  - rewrite JsFacts.sort_perm, length_app, !length_fmap.
    f_equal. symmetry. eapply list.Forall2_length. exact Htxs.
  - exists txs. split; [|split].
    + eapply list.Forall2_impl; [exact Htxs|]. intros gtx tx Htx. simpl in Htx.
      unfold mapGatewayTransaction in Htx.
      destruct (try_map _ _); simpl in Htx; [|done]. by injection Htx as <-.
    + intros tx. rewrite JsFacts.sort_perm, elem_of_app, !list_elem_of_fmap. split.
      * intros [(tx' & [= ->] & Hin)|(gl & ? & _)]; [done|done].
      * intros Hin. left. by exists tx.
    + intros log joined. rewrite JsFacts.sort_perm, elem_of_app, !list_elem_of_fmap.
      intros [(tx' & ? & _)|(gl & [= -> ->] & _)]; [done|].
      simpl. destruct (gw.Log.transactionIndex gl) as [i|]; simpl; [|done].
      rewrite txIndex_lookup, lookup_empty. by destruct (list.last _).
Qed.

End Client.
(** A key [height] of the block sent replaces the height taken from its
    number, and [BigInt(null)] is a [TypeError]. *)
Example height_key_overwrites :
  wire_height Examples.renumbered = Number 7 ∧
  mapGatewayBlockHeader Examples.formatId Examples.no_parse Examples.no_number
    (gw.Block.mk 50 "0xabc" [("height", gw.WNumber 7)]) =
    Ok (EvmBlock.mk (Text "0xabc") (Number 7) "0xabc" []) ∧
  mapGatewayBlockHeader Examples.formatId Examples.no_parse Examples.no_number
    Examples.renumbered = Throw TypeError.
Proof. repeat split. Qed.

Lemma header_reply_checked_witness :
  (getFinalizedBatch DEFAULT_FIELDS Examples.formatId Examples.no_parse Examples.no_number
     Examples.any_order Examples.no_difference Examples.silent_archive
     Examples.request_40_50 []).1 =
    Throw AssertionError.
Proof.
  apply (header_reply_checked DEFAULT_FIELDS Examples.formatId Examples.no_parse
           Examples.no_number Examples.any_order Examples.no_difference Examples.silent_archive
           Examples.request_40_50 [] (gw.BatchResponse.mk [] 51 100) []).
  - reflexivity.
  - reflexivity.
  - vm_compute. discriminate.
Defined.

Lemma mapped_blocks_sorted_witness :
  height_of <$> [Examples.stub 41; Examples.stub 43; Examples.stub 45] ≡ₚ
    (λ bd, wire_height (gw.BlockData.block bd)) <$>
      concat (gw.BatchResponse.data Examples.scattered) ∧
  ∀ heights,
    integers (height_of <$> [Examples.stub 41; Examples.stub 43; Examples.stub 45]) =
      Some heights →
    ascending (λ n, n) heights.
Proof.
  apply (mapped_blocks_sorted Examples.formatId Examples.no_parse Examples.no_number
           Examples.any_order Examples.no_difference Examples.scattered).
  vm_compute; reflexivity.
Defined.

Lemma transaction_mapping_witness :
  EvmTransaction.index Examples.mapped_tx_3 = gw.Transaction.index Examples.tx_3 ∧
  EvmTransaction.id Examples.mapped_tx_3 =
    Examples.formatId (Number 9) "0x9" (Some (gw.Transaction.index Examples.tx_3)) ∧
  (EvmTransaction.props Examples.mapped_tx_3).*1 =
    filter (λ key, key ∈ transaction_copied ++ transaction_bigints)
      (gw.Transaction.props Examples.tx_3).*1.
Proof.
  apply (transaction_mapping Examples.formatId Examples.no_parse (Number 9) "0x9"
           Examples.tx_3 Examples.mapped_tx_3).
  vm_compute; reflexivity.
Defined.

Lemma log_items_joined_witness :
  length (FullBlockData.items Examples.mapped_block_9) =
    (length (gw.BlockData.transactions Examples.block_9) +
     length (gw.BlockData.logs Examples.block_9))%nat ∧
  ∃ txs,
    Forall2 (λ gtx tx, EvmTransaction.index tx = gw.Transaction.index gtx)
      (gw.BlockData.transactions Examples.block_9) txs ∧
    (∀ tx, TransactionItem tx ∈ FullBlockData.items Examples.mapped_block_9 ↔ tx ∈ txs) ∧
    ∀ log joined, LogItem log joined ∈ FullBlockData.items Examples.mapped_block_9 →
      joined =
        i ← EvmLog.transactionIndex log;
        list.last (filter (λ tx, EvmTransaction.index tx = i) txs).
Proof.
  apply (log_items_joined Examples.formatId Examples.no_parse Examples.no_number
           Examples.any_order Examples.block_9 Examples.mapped_block_9).
  vm_compute; reflexivity.
Defined.

End ArchiveMore.

Module ProcessorMore.
Import Js Data Processor ProcessorFacts.

(** [toRequestList] never returns an empty list: no value, an empty array
    and nothing else give [undefined]. Otherwise it returns the strings
    given, in their order, in lower case, and applying it to its own
    result changes nothing. *)
Theorem toRequestList_result (val : option OneOrMany) :
  toRequestList val ≠ Some [] ∧
  (toRequestList val = None ↔ items val = []) ∧
  (∀ l, toRequestList val = Some l → l = toLowerCase <$> items val) ∧
  toRequestList (Many <$> toRequestList val) = toRequestList val.
Proof.
  destruct val as [[s|[|s l]]|]; repeat split; try done.
  - by intros l [= <-].
  - simpl. by rewrite toLowerCase_idemp.
  - by intros l' [= <-].
  - simpl. rewrite toLowerCase_idemp. do 2 f_equal.
    rewrite <- list_fmap_compose. apply list_fmap_ext. intros ? x _. simpl.
    apply toLowerCase_idemp.
Qed.

Lemma concatRequestLists_assoc {T} (a b c : option (list T)) :
  concatRequestLists (concatRequestLists a b) c =
    concatRequestLists a (concatRequestLists b c).
Proof.
  unfold concatRequestLists at 1 3. simpl.
  by rewrite !concatRequestLists_default, (assoc_L (++)).
Qed.

(** Merging requests is associative: however [mergeBatchRequests] groups
    the requests it merges, the merged request is the same. *)
Theorem merge_assoc (a b c : DataRequest.t) :
  merge (merge a b) c = merge a (merge b c).
Proof.
  unfold merge. simpl. rewrite !concatRequestLists_assoc. f_equal.
  by destruct (Archive.truthy (DataRequest.includeAllBlocks a)),
    (Archive.truthy (DataRequest.includeAllBlocks b)),
    (Archive.truthy (DataRequest.includeAllBlocks c)).
Qed.

Lemma call_not_running (c : Call) (self : EvmBatchProcessor) :
  running self = false →
  ∃ self', call c self = (inr tt, self') ∧ running self' = false ∧
           requests self' = requests self ++ stored c ∧
           fields self' = default (fields self) (Some <$> sets_fields c) ∧
           blockRange self' = default (blockRange self) (sets_blockRange c) ∧
           src self' = default (src self) (Some <$> sets_src c) ∧
           prometheusPort self' = default (prometheusPort self) (Some <$> sets_port c).
Proof.
  intros Hrun.
  destruct c; unfold call, stored, setFields, addLog, addTransaction, setPrometheusPort,
    includeAllBlocks, setBlockRange, setDataSource, add, bind, assertNotRunning, update;
    rewrite Hrun; simpl; eexists; (split; [reflexivity|]); simpl;
    rewrite ?app_nil_r; done.
Qed.

Lemma last_omap_fmap_step {A B C} (f : A → option B) (g : B → C) (d : C) (c : A)
    (cs : list A) :
  default (default d (g <$> f c)) (g <$> list.last (omap f cs)) =
    default d (g <$> list.last (omap f (c :: cs))).
Proof.
  change (omap f (c :: cs))
    with (match f c with Some y => y :: omap f cs | None => omap f cs end).
  destruct (f c); [|done]. rewrite last_cons. by destruct (list.last _).
Qed.

Lemma last_omap_step {A B} (f : A → option B) (d : B) (c : A) (cs : list A) :
  default (default d (f c)) (list.last (omap f cs)) =
    default d (list.last (omap f (c :: cs))).
Proof.
  change (omap f (c :: cs))
    with (match f c with Some y => y :: omap f cs | None => omap f cs end).
  destruct (f c); [|done]. rewrite last_cons. by destruct (list.last _).
Qed.

Lemma chain_not_running (cs : list Call) (self : EvmBatchProcessor) :
  running self = false →
  ∃ self', chain cs self = (inr tt, self') ∧ running self' = false ∧
           requests self' = requests self ++ concat (stored <$> cs) ∧
           fields self' = default (fields self) (Some <$> list.last (omap sets_fields cs)) ∧
           blockRange self' =
             default (blockRange self) (list.last (omap sets_blockRange cs)) ∧
           src self' = default (src self) (Some <$> list.last (omap sets_src cs)) ∧
           prometheusPort self' =
             default (prometheusPort self) (Some <$> list.last (omap sets_port cs)).
Proof.
  revert self. induction cs as [|c cs IH]; intros self Hrun.
  - exists self. simpl. by rewrite app_nil_r.
  - destruct (call_not_running c self Hrun)
      as (self1 & Hcall & Hrun1 & Hreqs & Hfields & Hrange & Hsrc & Hport).
    change (chain (c :: cs) self) with (bind (call c) (λ _, chain cs) self).
    unfold bind. rewrite Hcall.
    destruct (IH self1 Hrun1)
      as (self' & Hchain & Hrun' & IHreqs & IHfields & IHrange & IHsrc & IHport).
    exists self'. split; [done|]. split; [done|].
    rewrite IHreqs, IHfields, IHrange, IHsrc, IHport, Hreqs, Hfields, Hrange, Hsrc, Hport.
    rewrite !last_omap_fmap_step, last_omap_step.
    rewrite fmap_cons. simpl. by rewrite (assoc_L (++)).
Qed.

(** Before [run], no chain of configuration calls throws, and it leaves
    the processor not running. The requests it leaves are those the
    processor had, followed by what each call stores when made alone, in
    the order of the calls. *)
Theorem chain_before_run (cs : list Call) (self : EvmBatchProcessor) :
  running self = false →
  (chain cs self).1 = inr tt ∧
  running (chain cs self).2 = false ∧
  requests (chain cs self).2 = requests self ++ concat (stored <$> cs).
Proof.
  intros Hrun.
  destruct (chain_not_running cs self Hrun) as (self' & -> & Hrun' & Hreqs & _).
  done.
Qed.

(** Before [run], the last call of a setter decides: after a chain of
    configuration calls the fields, the block range, the data source and
    the metrics port are those of the last call that sets them, or what
    the processor had when the chain has no such call. *)
Theorem last_setter_wins (cs : list Call) (self : EvmBatchProcessor) :
  running self = false →
  let self' := (chain cs self).2 in
  fields self' = default (fields self) (Some <$> list.last (omap sets_fields cs)) ∧
  blockRange self' = default (blockRange self) (list.last (omap sets_blockRange cs)) ∧
  src self' = default (src self) (Some <$> list.last (omap sets_src cs)) ∧
  prometheusPort self' =
    default (prometheusPort self) (Some <$> list.last (omap sets_port cs)).
Proof.
  intros Hrun.
  destruct (chain_not_running cs self Hrun) as (self' & -> & _ & _ & Hsettings).
  exact Hsettings.
Qed.

(** [run] does not look at the data source: on a processor that is not
    running it returns and locks the settings whether a data source was
    set or not. The program it starts then finds the data source of the
    last [setDataSource] call of the configuration, and throws when there
    was none. *)
Theorem data_source_of_run {Database Handler} (database : Database) (handler : Handler)
    (cs : list Call) (self : EvmBatchProcessor) :
  running self = false →
  src self = None →
  let started := ((chain cs ;; run database handler) self).2 in
  ((chain cs ;; run database handler) self).1 = inr tt ∧
  running started = true ∧
  (getDataSource started).1 =
    match list.last (omap sets_src cs) with
    | Some source => inr source
    | None =>
        inl (mkError "use .setDataSource() to specify archive and/or chain RPC endpoint")
    end.
Proof.
  intros Hrun Hsrc.
  destruct (chain_not_running cs self Hrun)
    as (self' & Hchain & Hrun' & _ & _ & _ & Hsrc' & _).
  unfold bind at 1 2. rewrite Hchain. cbv zeta.
  unfold run, bind, assertNotRunning, update. rewrite Hrun'. simpl.
  split; [done|]. split; [done|].
  unfold getDataSource. simpl. rewrite Hsrc', Hsrc.
  by destruct (list.last _).
Qed.

(** A log subscription made before [run] stores one request, and the
    archive query of that request asks for logs only: of the addresses
    given, in lower case (any address when none or an empty array is
    given), with the topics given (any topics when no filter is given),
    from the first block of the range given, or from block 0 on with no
    end when no range is given. *)
Theorem addLog_query (D : DefaultFields.t) (options : LogOptions.t)
    (self : EvmBatchProcessor) :
  running self = false →
  ∃ request,
    requests (addLog options self).2 = requests self ++ [request] ∧
    let q := Archive.archiveQuery D request in
    gw.BatchRequest.fromBlock q = from_option Range.from 0 (LogOptions.range options) ∧
    gw.BatchRequest.toBlock q = LogOptions.range options ≫= Range.to ∧
    gw.BatchRequest.includeAllBlocks q = false ∧
    gw.BatchRequest.transactions q = [] ∧
    gw.LogRequest.address <$> gw.BatchRequest.logs q =
      [match items (LogOptions.address options) with
       | [] => None
       | addresses => Some (toLowerCase <$> addresses)
       end] ∧
    gw.LogRequest.topics <$> gw.BatchRequest.logs q =
      [default [] (LogOptions.filter options)].
Proof.
  intros Hrun. rewrite addLog_stores by done. eexists. split; [reflexivity|].
  simpl. repeat split.
  - by destruct (LogOptions.range options).
  - by destruct (LogOptions.range options).
  - by destruct (LogOptions.address options) as [[s|[|s l]]|].
  - by destruct (LogOptions.filter options) as [[|]|].
Qed.

(** A transaction subscription made before [run] stores one request, and
    the archive query of that request asks for transactions only, with
    the sender, the receiver and the sighash lists each where it was
    given, in lower case. *)
Theorem addTransaction_query (D : DefaultFields.t) (options : TransactionOptions.t)
    (self : EvmBatchProcessor) :
  running self = false →
  ∃ request,
    requests (addTransaction options self).2 = requests self ++ [request] ∧
    let q := Archive.archiveQuery D request in
    let lowered val :=
      match items val with
      | [] => None
      | l => Some (toLowerCase <$> l)
      end in
    gw.BatchRequest.fromBlock q =
      from_option Range.from 0 (TransactionOptions.range options) ∧
    gw.BatchRequest.toBlock q = TransactionOptions.range options ≫= Range.to ∧
    gw.BatchRequest.includeAllBlocks q = false ∧
    gw.BatchRequest.logs q = [] ∧
    gw.TransactionRequest.from <$> gw.BatchRequest.transactions q =
      [lowered (TransactionOptions.from options)] ∧
    gw.TransactionRequest.to <$> gw.BatchRequest.transactions q =
      [lowered (TransactionOptions.to options)] ∧
    gw.TransactionRequest.sighash <$> gw.BatchRequest.transactions q =
      [lowered (TransactionOptions.sighash options)].
Proof.
  intros Hrun. rewrite addTransaction_stores by done. eexists. split; [reflexivity|].
  simpl. repeat split.
  - by destruct (TransactionOptions.range options).
  - by destruct (TransactionOptions.range options).
  - by destruct (TransactionOptions.from options) as [[s|[|s l]]|].
  - by destruct (TransactionOptions.to options) as [[s|[|s l]]|].
  - by destruct (TransactionOptions.sighash options) as [[s|[|s l]]|].
Qed.

Lemma chain_before_run_witness :
  (chain Examples.configuration new).1 = inr tt ∧
  running (chain Examples.configuration new).2 = false ∧
  requests (chain Examples.configuration new).2 =
    requests new ++ concat (stored <$> Examples.configuration).
Proof. apply (chain_before_run Examples.configuration new). reflexivity. Defined.

Lemma last_setter_wins_witness :
  fields (chain Examples.configuration new).2 = None ∧
  blockRange (chain Examples.configuration new).2 = None ∧
  src (chain Examples.configuration new).2 = Some Examples.archive_and_chain ∧
  prometheusPort (chain Examples.configuration new).2 = None.
Proof. apply (last_setter_wins Examples.configuration new). reflexivity. Defined.

Lemma data_source_of_run_witness :
  ((chain Examples.configuration ;; run tt tt) new).1 = inr tt ∧
  running ((chain Examples.configuration ;; run tt tt) new).2 = true ∧
  (getDataSource ((chain Examples.configuration ;; run tt tt) new).2).1 =
    inr Examples.archive_and_chain.
Proof.
  apply (data_source_of_run tt tt Examples.configuration new); reflexivity.
Defined.

Lemma addLog_query_witness :
  ∃ request,
    requests (addLog Examples.transfers new).2 = requests new ++ [request] ∧
    let q := Archive.archiveQuery Archive.DEFAULT_FIELDS request in
    gw.BatchRequest.fromBlock q = 100 ∧
    gw.BatchRequest.toBlock q = Some 200 ∧
    gw.BatchRequest.includeAllBlocks q = false ∧
    gw.BatchRequest.transactions q = [] ∧
    gw.LogRequest.address <$> gw.BatchRequest.logs q = [Some ["0xa0b8"; "0xdac1"]] ∧
    gw.LogRequest.topics <$> gw.BatchRequest.logs q = [[]].
Proof.
  apply (addLog_query Archive.DEFAULT_FIELDS Examples.transfers new). reflexivity.
Defined.

Lemma addTransaction_query_witness :
  ∃ request,
    requests (addTransaction Examples.approvals new).2 = requests new ++ [request] ∧
    let q := Archive.archiveQuery Archive.DEFAULT_FIELDS request in
    gw.BatchRequest.fromBlock q = 0 ∧
    gw.BatchRequest.toBlock q = None ∧
    gw.BatchRequest.includeAllBlocks q = false ∧
    gw.BatchRequest.logs q = [] ∧
    gw.TransactionRequest.from <$> gw.BatchRequest.transactions q = [None] ∧
    gw.TransactionRequest.to <$> gw.BatchRequest.transactions q = [Some ["0xa0b8"]] ∧
    gw.TransactionRequest.sighash <$> gw.BatchRequest.transactions q =
      [Some ["0x095ea7b3"]].
Proof.
  apply (addTransaction_query Archive.DEFAULT_FIELDS Examples.approvals new). reflexivity.
Defined.

End ProcessorMore.

